(** * The app event watcher of the dev command

    A shallow embedding of
    [packages/app/src/cli/services/dev/app-events/app-event-watcher.ts]:
    the [AppEventWatcher] class, its [start] sequence, the handler it
    registers with the file watcher, its two listener registrations and its
    two private helpers [buildExtensions] and [deleteExtensionsBuildOutput].

    The class is an object with mutable fields that calls into collaborators
    and into esbuild.  It is embedded as a state-and-exception monad over a
    record holding the fields of the object, the directory tree it and the
    builds write to and the log of every call it makes to the outside.  A
    JavaScript exception keeps the state reached when it was thrown.
    [start], the method that guards against being called again, runs to its
    first [await] when it is called and is resumed from there, one [await]
    at a time, so that other calls of it can come in between; an async
    method that is awaited where it is called runs as one step. *)

From stdpp Require Import gmap strings list fin_maps fin_sets.

Local Open Scope string_scope.

(** ** Values thrown and returned *)

(** An [Error] object; the watcher only ever reads its [message]. *)
Record JsError := mkError { message : string }.

(** How a call into a collaborator ends: it returns a value or it throws. *)
Inductive Outcome (A : Type) : Type :=
| Returns (a : A)
| Throws (e : JsError).
Arguments Returns {A} a.
Arguments Throws {A} e.

(** ** The data of the source file *)

(** [enum EventType]. *)
Inductive EventType := Updated | Deleted | Created.

Global Instance EventType_eq_dec : EqDecision EventType.
Proof. solve_decision. Defined.

(** The data the watcher reads of an [ExtensionInstance].  Its method
    [buildForBundle] is taken from the [Collaborators] below: the options it
    is given hold the app, and the app holds the extensions. *)
Record ExtensionInstance := mkExtension {
  handle : string;
  getOutputFolderId : string;
  isESBuildExtension : bool
}.

(** [interface ExtensionEvent]. *)
Record ExtensionEvent := mkExtensionEvent {
  type : EventType;
  extension : ExtensionInstance
}.

(** What the watcher uses of an [AppLinkedInterface]. *)
Record AppLinkedInterface := mkApp {
  directory : string;
  realExtensions : list ExtensionInstance
}.

(** [interface AppEvent]. *)
Record AppEvent := mkAppEvent {
  ev_app : AppLinkedInterface;
  extensionEvents : list ExtensionEvent;
  path : string;
  startTime : nat * nat
}.

(** The options object handed to [buildForBundle]: the app, [useTasks],
    the environment and the URL.  The two output streams are the same for
    every call and are left out. *)
Record ExtensionBuildOptions := mkBuildOptions {
  opt_app : AppLinkedInterface;
  useTasks : bool;
  environment : string;
  opt_appURL : option string
}.

(** [type ExtensionBuildResult]. *)
Inductive ExtensionBuildResult :=
| status_ok (h : string)
| status_error (error : string) (h : string).

(** An esbuild message and the result of a rebuild; only [errors] and the
    [text] of each error are read. *)
Record Message := mkMessage { text : string }.
Record BuildResult := mkBuildResult { errors : list Message }.

(** A live esbuild context of the [ESBuildContextManager]: how its
    [rebuild()] ends and what the rebuild writes to disk.  The table of the
    contexts is replaced at every batch, before the builds of the batch, so
    a context stands for the rebuild of the batch at hand. *)
Record BuildContext := mkContext {
  rebuild : Outcome BuildResult;
  rebuildOutput : gset string -> gset string
}.

(** A listener registered on the emitter.  What a listener does when it is
    called belongs to the consumer; the model records that it was called and
    with which argument. *)
Definition Listener := nat.

(** ** Calls to the outside, in the order they are made *)

Inductive Effect :=
| Rmdir (p : string) (force : bool)
| Mkdir (p : string)
| CreateContexts (handles : list string)
| UpdateContexts (ev : AppEvent)
| OutputContext (outputPrefix : string) (stripAnsi : bool)
| Rebuild (h : string)
| BuildForBundle (h : string) (options : ExtensionBuildOptions) (bundleDirectory : string)
| StartFileWatcher
| OutputDebug (msg : string)
| StderrWrite (msg : string)
| Call (event : string) (l : Listener) (arg : option AppEvent).

(** ** The object and its surroundings *)

(** The fields of an [AppEventWatcher] ([contexts] is
    [esbuildManager.contexts], [listeners] is the table of the
    [EventEmitter] it extends), the paths present on disk and the log. *)
Record Watcher := mkWatcher {
  buildOutputPath : string;
  app : AppLinkedInterface;
  appURL : option string;
  contexts : gmap string BuildContext;
  started : bool;
  ready : bool;
  listeners : gmap string (list Listener);
  disk : gset string;
  trace : list Effect
}.

Definition set_app (a : AppLinkedInterface) (w : Watcher) : Watcher :=
  mkWatcher (buildOutputPath w) a (appURL w) (contexts w) (started w) (ready w)
            (listeners w) (disk w) (trace w).
Definition set_contexts (c : gmap string BuildContext) (w : Watcher) : Watcher :=
  mkWatcher (buildOutputPath w) (app w) (appURL w) c (started w) (ready w)
            (listeners w) (disk w) (trace w).
Definition set_started (b : bool) (w : Watcher) : Watcher :=
  mkWatcher (buildOutputPath w) (app w) (appURL w) (contexts w) b (ready w)
            (listeners w) (disk w) (trace w).
Definition set_ready (b : bool) (w : Watcher) : Watcher :=
  mkWatcher (buildOutputPath w) (app w) (appURL w) (contexts w) (started w) b
            (listeners w) (disk w) (trace w).
Definition set_listeners (t : gmap string (list Listener)) (w : Watcher) : Watcher :=
  mkWatcher (buildOutputPath w) (app w) (appURL w) (contexts w) (started w) (ready w)
            t (disk w) (trace w).
Definition set_disk (d : gset string) (w : Watcher) : Watcher :=
  mkWatcher (buildOutputPath w) (app w) (appURL w) (contexts w) (started w) (ready w)
            (listeners w) d (trace w).
Definition set_trace (t : list Effect) (w : Watcher) : Watcher :=
  mkWatcher (buildOutputPath w) (app w) (appURL w) (contexts w) (started w) (ready w)
            (listeners w) (disk w) t.

(** ** The monad of methods *)

Definition M (A : Type) : Type := Watcher -> Outcome A * Watcher.

Global Instance M_ret : MRet M := fun A a w => (Returns a, w).
Global Instance M_bind : MBind M := fun A B k m w =>
  match m w with
  | (Returns a, w') => k a w'
  | (Throws e, w') => (Throws e, w')
  end.

Definition this : M Watcher := fun w => (Returns w, w).
Definition modify (f : Watcher -> Watcher) : M unit := fun w => (Returns tt, f w).
Definition throw {A} (e : JsError) : M A := fun w => (Throws e, w).
Definition await {A} (o : Outcome A) : M A := fun w => (o, w).
Definition log (e : Effect) : M unit := modify (fun w => set_trace (trace w ++ [e])%list w).

(** [try { body } catch (error) { handler }]. *)
Definition try_catch {A} (body : M A) (handler : JsError -> M A) : M A := fun w =>
  match body w with
  | (Returns a, w') => (Returns a, w')
  | (Throws e, w') => handler e w'
  end.

(** [Promise.all] over promises that are already running: every one of them
    runs to its end, the results come back in the order of the array, and
    the whole rejects with a rejection of one of them if there is one.  The
    async bodies are started in the order of the array and each call they
    make to the outside is taken as one step. *)
Fixpoint Promise_all {A} (promises : list (M A)) : M (list A) := fun w =>
  match promises with
  | [] => (Returns [], w)
  | p :: rest =>
      match p w with
      | (Returns a, w') =>
          match Promise_all rest w' with
          | (Returns l, w'') => (Returns (a :: l), w'')
          | (Throws e, w'') => (Throws e, w'')
          end
      | (Throws e, w') => (Throws e, snd (Promise_all rest w'))
      end
  end.

(** The state and the result of running a method. *)
Definition exec {A} (m : M A) (w : Watcher) : Watcher := snd (m w).
Definition eval {A} (m : M A) (w : Watcher) : Outcome A := fst (m w).

(** ** Async methods *)

(** An async method that has been called: it has run to its end, or it
    waits at an [await] and [resume] runs it on, to its end or to its next
    [await].  A rejection is a [resume] that throws. *)
#[local] Unset Elimination Schemes.
Inductive Async : Type :=
| Done
| Waiting (resume : M Async).
#[local] Set Elimination Schemes.

(** [await promise] followed by [rest]: the method waits; when it is
    resumed the awaited call is made and, if it returns, [rest] runs on
    from its value.  Each awaited call is taken as one step. *)
Definition awaiting {A} (promise : M A) (rest : A -> M Async) : M Async :=
  mret (Waiting (a ← promise; rest a)).

(** A method resumed until it has ended, nothing coming in between. *)
Fixpoint complete (task : Async) : M unit := fun w =>
  match task with
  | Done => (Returns tt, w)
  | Waiting resume =>
      match resume w with
      | (Returns task', w') => complete task' w'
      | (Throws e, w') => (Throws e, w')
      end
  end.

(** A call of an async method that is awaited at once. *)
Definition run (call : M Async) : M unit := task ← call; complete task.

(** ** Collaborators outside the source file *)

(** [Array.prototype.join]. *)
Fixpoint join (sep : string) (l : list string) : string :=
  match l with
  | [] => ""
  | [s] => s
  | s :: rest => s ++ sep ++ join sep rest
  end.

(** The line feed of the literal ['\n']. *)
Definition newline : string := String (Ascii.ascii_of_nat 10) "".

(** Modelled from the spec: [joinPath] of [@shopify/cli-kit/node/path] is
    missing; the spec calls the output path of an extension the
    "deterministic join of the session's output root and the handle's
    folder id". *)
Definition joinPath (segments : list string) : string := join "/" segments.

(** [inside dir p]: [p] is [dir] or lies below it. *)
Definition inside (dir p : string) : bool :=
  bool_decide (p = dir) || String.prefix (dir ++ "/") p.

(** Modelled from the spec: [fileExists] of [@shopify/cli-kit/node/fs] is
    missing; the disk is the set of the paths that exist. *)
Definition fileExists (p : string) : M bool :=
  fun w => (Returns (bool_decide (p ∈ disk w)), w).

(** A disk without the directory [p] and all that lies below it. *)
Definition remove_tree (p : string) (d : gset string) : gset string :=
  filter (fun q => inside p q = false) d.

(** Modelled from the spec: [rmdir] of [@shopify/cli-kit/node/fs] is
    missing.  With [force] the spec has it "force-remove" the directory,
    where "removing a non-existent directory is not an error"; without
    [force] a missing path is the error of the file system.  The model has
    a forced removal remove the tree in every case; that a file system can
    refuse is modelled at [mkdir], the call that follows it in [start]. *)
Definition rmdir (p : string) (force : bool) : M unit :=
  log (Rmdir p force);;
  w ← this;
  if force || bool_decide (p ∈ disk w)
  then modify (fun w => set_disk (remove_tree p (disk w)) w)
  else throw (mkError ("ENOENT: no such file or directory, " ++ p)).

(** Modelled from the spec: [useConcurrentOutputContext] of the UI
    components is missing; the spec has every build run "inside an isolated
    concurrent output scope keyed by the artifact's handle", a matter of
    presentation.  It runs its callback. *)
Definition useConcurrentOutputContext {A} (outputPrefix : string) (stripAnsi : bool)
    (callback : M A) : M A :=
  log (OutputContext outputPrefix stripAnsi);;
  callback.

(** [outputDebug] and [stderr.write]. *)
Definition outputDebug (msg : string) : M unit := log (OutputDebug msg).
Definition stderr_write (msg : string) : M unit := log (StderrWrite msg).

(** The collaborators that are missing from the sources, as an
    interface: the file system creating a directory ([mkdirOutcome], given
    the path and the disk, the spec naming the "failure creating/clearing
    the output directory" as the error that "propagates out of [start()]");
    the reconciliation of raw file-system events of
    [./app-event-watcher-handler.js] ([handleWatcherEvents], a promise that
    may reject and may resolve to nothing); the two operations of the
    [ESBuildContextManager] of [./app-watcher-esbuild.js] on its table of
    contexts, either of which may throw (the spec names "a failure updating
    the Incremental Build Registry" as the error the handler of a batch
    catches); the subscription of [./file-watcher.js]
    ([startFileWatcherOutcome]); and [buildForBundle] of an extension: how
    it ends, given the options and the directory it is called with, and
    what it writes to disk ([bundleOutput]), which it may also do when it
    throws. *)
Class Collaborators := {
  WatcherEvent : Type;
  mkdirOutcome : string -> gset string -> Outcome unit;
  handleWatcherEvents :
    list WatcherEvent -> AppLinkedInterface -> Outcome (option AppEvent);
  createContexts :
    list ExtensionInstance -> gmap string BuildContext
    -> Outcome (gmap string BuildContext);
  updateContexts :
    AppEvent -> gmap string BuildContext -> Outcome (gmap string BuildContext);
  startFileWatcherOutcome : AppLinkedInterface -> Outcome unit;
  buildForBundle : ExtensionInstance -> ExtensionBuildOptions -> string -> Outcome unit;
  bundleOutput :
    ExtensionInstance -> ExtensionBuildOptions -> string -> gset string -> gset string
}.

(** ** The emitter the class extends *)

Definition listenersOf (event : string) (w : Watcher) : list Listener :=
  default [] (listeners w !! event).

(** [emitter.addListener(event, listener)]: appended, duplicates kept. *)
Definition addListener (event : string) (listener : Listener) : M unit :=
  modify (fun w => set_listeners (<[event := (listenersOf event w ++ [listener])%list]> (listeners w)) w).

(** [emitter.emit(event, arg)]: every listener of the event, in the order of
    registration. *)
Definition emit (event : string) (arg : option AppEvent) : M unit :=
  modify (fun w => set_trace (trace w ++ ((fun l => Call event l arg) <$> listenersOf event w))%list w).

(** ** The methods of [AppEventWatcher] *)

(** [constructor(app, appURL?, options?, buildOutputPath?)] on a given disk. *)
Definition new_AppEventWatcher (a : AppLinkedInterface) (url : option string)
    (outputPath : option string) (d : gset string) : Watcher :=
  {| buildOutputPath := default (joinPath [directory a; ".shopify"; "bundle"]) outputPath;
     app := a;
     appURL := url;
     contexts := ∅;
     started := false;
     ready := false;
     listeners := ∅;
     disk := d;
     trace := [] |}.

(** The async body [deleteExtensionsBuildOutput] maps over the extensions. *)
Definition deleteOne (ext : ExtensionInstance) : M unit :=
  w ← this;
  let outputPath := joinPath [buildOutputPath w; getOutputFolderId ext] in
  rmdir outputPath true.

(** [private async deleteExtensionsBuildOutput(extensions)]. *)
Definition deleteExtensionsBuildOutput (extensions : list ExtensionInstance) : M unit :=
  Promise_all (deleteOne <$> extensions);;
  mret tt.

(** [onEvent(listener)] and [onStart(listener)]. *)
Definition onEvent (listener : Listener) : M unit :=
  addListener "all" listener.

Definition onStart (listener : Listener) : M unit :=
  addListener "ready" listener;;
  w ← this;
  if ready w then emit "ready" None else mret tt.

(** The two local constants of the handler of a batch: the extensions of
    the events that are not deletions, and those of the deletions. *)
Definition createdOrUpdatedExtensions (appEvent : AppEvent) : list ExtensionInstance :=
  extension <$> filter (fun extEvent => type extEvent ≠ Deleted) (extensionEvents appEvent).

Definition deletedExtensions (appEvent : AppEvent) : list ExtensionInstance :=
  extension <$> filter (fun extEvent => type extEvent = Deleted) (extensionEvents appEvent).

Section Methods.
Context `{Collaborators}.

(** Modelled from the spec: [mkdir] of [@shopify/cli-kit/node/fs] is
    missing; the spec has [start] "(re)create" the output root with it and
    has its failure propagate.  When the file system refuses, nothing is
    created. *)
Definition mkdir (p : string) : M unit :=
  log (Mkdir p);;
  w ← this;
  await (mkdirOutcome p (disk w));;
  modify (fun w => set_disk ({[p]} ∪ disk w) w).

(** [extension.buildForBundle(options, bundleDirectory)]: the call, what
    it writes, and how it ends. *)
Definition extension_buildForBundle (ext : ExtensionInstance)
    (options : ExtensionBuildOptions) (bundleDirectory : string) : M unit :=
  log (BuildForBundle (handle ext) options bundleDirectory);;
  modify (fun w => set_disk (bundleOutput ext options bundleDirectory (disk w)) w);;
  await (buildForBundle ext options bundleDirectory).

(** [context.rebuild()] of the context held for the handle [h]. *)
Definition context_rebuild (h : string) (context : BuildContext) : M BuildResult :=
  log (Rebuild h);;
  modify (fun w => set_disk (rebuildOutput context (disk w)) w);;
  await (rebuild context).

(** [private async buildExtension(extension)]. *)
Definition buildExtension (ext : ExtensionInstance) : M unit :=
  w ← this;
  let buildOptions :=
    {| opt_app := app w;
       useTasks := false;
       environment := "development";
       opt_appURL := appURL w |} in
  extension_buildForBundle ext buildOptions (buildOutputPath w).

(** The async body [buildExtensions] maps over the extensions. *)
Definition buildOne (ext : ExtensionInstance) : M ExtensionBuildResult :=
  useConcurrentOutputContext (handle ext) false
    (try_catch
       (w ← this;
        match contexts w !! handle ext with
        | Some context =>
            result ← context_rebuild (handle ext) context;
            if bool_decide (length (errors result) ≠ 0)
            then throw (mkError (join newline (text <$> errors result)))
            else mret tt
        | None => buildExtension ext
        end;;
        mret (status_ok (handle ext)))
       (fun error => mret (status_error (message error) (handle ext)))).

(** [private async buildExtensions(extensions)]. *)
Definition buildExtensions (extensions : list ExtensionInstance)
    : M (list ExtensionBuildResult) :=
  Promise_all (buildOne <$> extensions).

Definition esbuildManager_createContexts (exts : list ExtensionInstance) : M unit :=
  log (CreateContexts (handle <$> exts));;
  w ← this;
  c ← await (createContexts exts (contexts w));
  modify (set_contexts c).

Definition esbuildManager_updateContexts (appEvent : AppEvent) : M unit :=
  log (UpdateContexts appEvent);;
  w ← this;
  c ← await (updateContexts appEvent (contexts w));
  modify (set_contexts c).

(** The chain [.then(async (appEvent) => ...).catch((error) => ...)] on the
    promise of [handleWatcherEvents]. *)
Definition handleAppEvent (reconciled : Outcome (option AppEvent)) : M unit :=
  try_catch
    (appEvent ← await reconciled;
     match appEvent with
     | None => mret tt
     | Some appEvent =>
         modify (set_app (ev_app appEvent));;
         if bool_decide (length (extensionEvents appEvent) = 0)
         then outputDebug "Change detected, but no extensions were affected"
         else
           esbuildManager_updateContexts appEvent;;
           _ ← buildExtensions (createdOrUpdatedExtensions appEvent);
           deleteExtensionsBuildOutput (deletedExtensions appEvent);;
           emit "all" (Some appEvent)
     end)
    (fun error => stderr_write ("Error handling event: " ++ message error)).

(** The callback [start] hands to [startFileWatcher]. *)
Definition onWatcherEvents (events : list WatcherEvent) : M unit :=
  w ← this;
  handleAppEvent (handleWatcherEvents events (app w)).

(** Modelled from the spec: [startFileWatcher] of [./file-watcher.js] is
    missing; the spec has [start] "begin listening to the external
    reconciled-event source, registering a batch handler".  The handler it
    is given is [onWatcherEvents]. *)
Definition startFileWatcher (a : AppLinkedInterface) : M unit :=
  log StartFileWatcher;;
  await (startFileWatcherOutcome a).

(** [async start()].  The check of [started] and its assignment run when
    the method is called; the method then waits at each of its awaits in
    turn. *)
Definition start : M Async :=
  w ← this;
  if started w then mret Done else
  modify (set_started true);;
  awaiting (fileExists (buildOutputPath w)) (fun exists_ =>
  (if exists_ : bool
   then awaiting (rmdir (buildOutputPath w) true)
   else fun rest => rest tt) (fun _ =>
  awaiting (mkdir (buildOutputPath w)) (fun _ =>
  w ← this;
  awaiting (esbuildManager_createContexts
              (filter (fun ext => isESBuildExtension ext = true)
                      (realExtensions (app w)))) (fun _ =>
  w ← this;
  awaiting (buildExtensions (realExtensions (app w))) (fun _ =>
  w ← this;
  awaiting (startFileWatcher (app w)) (fun _ =>
  modify (set_ready true);;
  emit "ready" None;;
  mret Done)))))).

End Methods.

(** ** Several calls *)

(** Steps one after the other, and a method called [n] times in a row. *)
Fixpoint sequence (steps : list (M unit)) : M unit :=
  match steps with
  | [] => mret tt
  | step :: rest => step;; sequence rest
  end.

Fixpoint times (n : nat) (m : M unit) : M unit :=
  match n with
  | 0 => mret tt
  | S n => m;; times n m
  end.

(** ** Calls that overlap *)



(** What the event loop does next: a new call of the method comes in, or
    the call number [i], counting the calls from [0] in the order they were
    made, is run on to its next await. *)
Inductive Turn := NewCall | RunOn (i : nat).

Global Instance Turn_eq_dec : EqDecision Turn.
Proof. solve_decision. Defined.






(** ** Reading a log *)

(** The handles of the builds a log holds, the paths it removes and the
    calls to listeners it makes, each in the order of the log. *)
Definition builtHandle (e : Effect) : option string :=
  match e with
  | Rebuild h | BuildForBundle h _ _ => Some h
  | _ => None
  end.

Definition removedPath (e : Effect) : option string :=
  match e with
  | Rmdir p _ => Some p
  | _ => None
  end.

Definition callOf (e : Effect) : option (string * Listener * option AppEvent) :=
  match e with
  | Call event l arg => Some (event, l, arg)
  | _ => None
  end.

Definition built (t : list Effect) : list string := omap builtHandle t.
Definition removed (t : list Effect) : list string := omap removedPath t.
Definition calls (t : list Effect) : list (string * Listener * option AppEvent) :=
  omap callOf t.

(** How many times a log calls listener [l] for [event]. *)
Definition deliveries (event : string) (l : Listener) (t : list Effect) : nat :=
  length (filter (fun c => c.1 = (event, l)) (calls t)).

(** The steps of [start] that are taken once per session. *)
Definition isSetup (e : Effect) : bool :=
  match e with
  | Mkdir _ | CreateContexts _ | StartFileWatcher => true
  | _ => false
  end.

(** ** One build in closed form *)

(** The options [buildExtension] passes, the result the body of
    [buildExtensions] resolves to for one extension, the calls it makes and
    what it writes; [buildOne_unfold] below proves them equal to the code. *)
Definition optionsOf (w : Watcher) : ExtensionBuildOptions :=
  {| opt_app := app w;
     useTasks := false;
     environment := "development";
     opt_appURL := appURL w |}.

Definition settle (h : string) (o : Outcome unit) : ExtensionBuildResult :=
  match o with
  | Returns _ => status_ok h
  | Throws e => status_error (message e) h
  end.

(** The output directory of an extension. *)
Definition outputPathOf (w : Watcher) (ext : ExtensionInstance) : string :=
  joinPath [buildOutputPath w; getOutputFolderId ext].

(** The handle a result is for. *)
Definition handleOf (r : ExtensionBuildResult) : string :=
  match r with
  | status_ok h => h
  | status_error _ h => h
  end.

Section ClosedForms.
Context `{Collaborators}.

Definition resultOf (w : Watcher) (ext : ExtensionInstance) : ExtensionBuildResult :=
  match contexts w !! handle ext with
  | Some context =>
      match rebuild context with
      | Returns result =>
          match errors result with
          | [] => status_ok (handle ext)
          | errs => status_error (join newline (text <$> errs)) (handle ext)
          end
      | Throws e => status_error (message e) (handle ext)
      end
  | None => settle (handle ext) (buildForBundle ext (optionsOf w) (buildOutputPath w))
  end.

Definition effectsOf (w : Watcher) (ext : ExtensionInstance) : list Effect :=
  [ OutputContext (handle ext) false;
    match contexts w !! handle ext with
    | Some _ => Rebuild (handle ext)
    | None => BuildForBundle (handle ext) (optionsOf w) (buildOutputPath w)
    end ].

Definition writesOf (w : Watcher) (ext : ExtensionInstance) : gset string -> gset string :=
  match contexts w !! handle ext with
  | Some context => rebuildOutput context
  | None => bundleOutput ext (optionsOf w) (buildOutputPath w)
  end.

(** The disk [d] after the builds of [exts], one after the other. *)
Definition builtDisk (w : Watcher) (exts : list ExtensionInstance) (d : gset string)
    : gset string :=
  foldl (fun d ext => writesOf w ext d) d exts.

(** ** How the build of an extension can end *)

(** The backend of [ext] throws [e]: its esbuild context when it has one,
    its [buildForBundle] otherwise. *)
Definition buildThrows (w : Watcher) (ext : ExtensionInstance) (e : JsError) : Prop :=
  match contexts w !! handle ext with
  | Some context => rebuild context = Throws e
  | None => buildForBundle ext (optionsOf w) (buildOutputPath w) = Throws e
  end.

(** The backend of [ext] returns, and without errors if it is esbuild. *)
Definition buildSucceeds (w : Watcher) (ext : ExtensionInstance) : Prop :=
  match contexts w !! handle ext with
  | Some context => exists result, rebuild context = Returns result /\ errors result = []
  | None => buildForBundle ext (optionsOf w) (buildOutputPath w) = Returns tt
  end.

(** ** A batch and a start in closed form *)

(** The state in which the extensions of a batch are built. *)
Definition updated (appEvent : AppEvent) (c : gmap string BuildContext)
    (w : Watcher) : Watcher :=
  set_contexts c (set_app (ev_app appEvent) w).

(** What a processed batch adds to the log before it notifies. *)
Definition batchWork (appEvent : AppEvent) (c : gmap string BuildContext)
    (w : Watcher) : list Effect :=
  ([UpdateContexts appEvent]
   ++ concat (effectsOf (updated appEvent c w) <$> createdOrUpdatedExtensions appEvent)
   ++ ((fun ext => Rmdir (outputPathOf w ext) true) <$> deletedExtensions appEvent))%list.

(** The disk a processed batch leaves: what the builds of the created and
    updated extensions make of the disk, without the output directories of
    the deleted ones. *)
Definition batchDisk (appEvent : AppEvent) (c : gmap string BuildContext)
    (w : Watcher) : gset string :=
  foldl (fun d p => remove_tree p d)
    (builtDisk (updated appEvent c w) (createdOrUpdatedExtensions appEvent) (disk w))
    (outputPathOf w <$> deletedExtensions appEvent).

(** The extensions [start] has contexts created for. *)
Definition esbuildExtensions (a : AppLinkedInterface) : list ExtensionInstance :=
  filter (fun ext => isESBuildExtension ext = true) (realExtensions a).

(** The disk once [start] has cleared the output root, and the call that
    clears it. *)
Definition clearedDisk (w : Watcher) : gset string :=
  if bool_decide (buildOutputPath w ∈ disk w)
  then remove_tree (buildOutputPath w) (disk w)
  else disk w.

Definition clearing (w : Watcher) : list Effect :=
  if bool_decide (buildOutputPath w ∈ disk w)
  then [Rmdir (buildOutputPath w) true] else [].

(** The watcher along a first call of [start]: when [mkdir] has been
    called; when the root is there and [createContexts] has been called;
    when the contexts [c] are there and the extensions have been built;
    when [startFileWatcher] has been called; and at the end. *)
Definition cleared (w : Watcher) : Watcher :=
  set_disk (clearedDisk w)
    (set_trace (trace w ++ clearing w ++ [Mkdir (buildOutputPath w)])
       (set_started true w)).

Definition rooted (w : Watcher) : Watcher :=
  set_disk ({[buildOutputPath w]} ∪ clearedDisk w)
    (set_trace (trace (cleared w)
                ++ [CreateContexts (handle <$> esbuildExtensions (app w))])
       (cleared w)).

Definition builtAll (c : gmap string BuildContext) (w : Watcher) : Watcher :=
  let w' := set_contexts c (rooted w) in
  set_disk (builtDisk w' (realExtensions (app w)) (disk w'))
    (set_trace (trace w' ++ concat (effectsOf w' <$> realExtensions (app w))) w').

Definition subscribing (c : gmap string BuildContext) (w : Watcher) : Watcher :=
  set_trace (trace (builtAll c w) ++ [StartFileWatcher]) (builtAll c w).

Definition readied (c : gmap string BuildContext) (w : Watcher) : Watcher :=
  set_trace (trace (subscribing c w)
             ++ ((fun l => Call "ready" l None) <$> listenersOf "ready" w))
    (set_ready true (subscribing c w)).

(** What a first call of [start] that gets to subscribe adds to the log
    before it notifies. *)
Definition startWork (c : gmap string BuildContext) (w : Watcher) : list Effect :=
  (clearing w
   ++ [Mkdir (buildOutputPath w);
       CreateContexts (handle <$> esbuildExtensions (app w))]
   ++ concat (effectsOf (set_contexts c (rooted w)) <$> realExtensions (app w))
   ++ [StartFileWatcher])%list.

(** The three steps of [start] that are taken once per session, as the
    log has them. *)
Definition setupOf (w : Watcher) : list Effect :=
  [ Mkdir (buildOutputPath w);
    CreateContexts (handle <$> esbuildExtensions (app w));
    StartFileWatcher ].

(** A first call of [start], awaited: how it ends and the watcher it
    leaves; [run_start_first] below proves it equal to the code. *)
Definition firstStart (w : Watcher) : Outcome unit * Watcher :=
  match mkdirOutcome (buildOutputPath w) (clearedDisk w) with
  | Throws e => (Throws e, cleared w)
  | Returns _ =>
      match createContexts (esbuildExtensions (app w)) (contexts w) with
      | Throws e => (Throws e, rooted w)
      | Returns c =>
          match startFileWatcherOutcome (app w) with
          | Throws e => (Throws e, subscribing c w)
          | Returns _ => (Returns tt, readied c w)
          end
      end
  end.

End ClosedForms.

(** ** A sample session *)

(** Three extensions: with the sample collaborators below [sampleX] fails
    to bundle and [sampleY] bundles; [sampleZ] is an esbuild extension. *)
Definition sampleX : ExtensionInstance := mkExtension "x" "x-id" false.
Definition sampleY : ExtensionInstance := mkExtension "y" "y-id" false.
Definition sampleZ : ExtensionInstance := mkExtension "z" "z-id" true.

Definition sampleApp : AppLinkedInterface :=
  mkApp "/app" [sampleX; sampleY; sampleZ].

(** A new watcher over a disk with output left by an earlier session. *)
Definition sampleWatcher : Watcher :=
  new_AppEventWatcher sampleApp None None
    {[ "/app/.shopify/bundle"; "/app/.shopify/bundle/z-id"; "/app/.shopify/bundles" ]}.

(** A context whose rebuild reports two errors and writes nothing, and the
    watcher holding it for [sampleZ]. *)
Definition sampleContext : BuildContext :=
  mkContext (Returns (mkBuildResult [mkMessage "e1"; mkMessage "e2"])) (fun d => d).

Definition sampleLive : Watcher :=
  set_contexts {[ "z" := sampleContext ]} sampleWatcher.

(** A batch that creates [sampleX], updates [sampleY] and deletes
    [sampleZ], and a batch without events. *)
Definition sampleBatch : AppEvent :=
  mkAppEvent sampleApp
    [ mkExtensionEvent Created sampleX;
      mkExtensionEvent Updated sampleY;
      mkExtensionEvent Deleted sampleZ ]
    "/app/extensions/x/index.js" (0, 0).

Definition sampleApp2 : AppLinkedInterface := mkApp "/app" [sampleY].

Definition sampleQuietBatch : AppEvent :=
  mkAppEvent sampleApp2 [] "/app/README.md" (0, 0).

(** Collaborators that leave the contexts alone and with which the
    bundling of ["x"] throws and writes nothing, while that of any other
    extension writes its output directory; collaborators whose update of
    the contexts fails; and collaborators whose file system refuses to
    create a directory. *)
Definition sampleCollaborators : Collaborators :=
  {| WatcherEvent := unit;
     mkdirOutcome := fun _ _ => Returns tt;
     handleWatcherEvents := fun _ _ => Returns None;
     createContexts := fun _ c => Returns c;
     updateContexts := fun _ c => Returns c;
     startFileWatcherOutcome := fun _ => Returns tt;
     buildForBundle := fun ext _ _ =>
       if bool_decide (handle ext = "x") then Throws (mkError "boom") else Returns tt;
     bundleOutput := fun ext _ dir d =>
       if bool_decide (handle ext = "x") then d
       else {[joinPath [dir; getOutputFolderId ext]]} ∪ d |}.

Definition failingCollaborators : Collaborators :=
  {| WatcherEvent := unit;
     mkdirOutcome := fun _ _ => Returns tt;
     handleWatcherEvents := fun _ _ => Returns None;
     createContexts := fun _ c => Returns c;
     updateContexts := fun _ _ => Throws (mkError "esbuild context failed");
     startFileWatcherOutcome := fun _ => Returns tt;
     buildForBundle := @buildForBundle sampleCollaborators;
     bundleOutput := @bundleOutput sampleCollaborators |}.

Definition refusingCollaborators : Collaborators :=
  {| WatcherEvent := unit;
     mkdirOutcome := fun _ _ => Throws (mkError "EACCES: permission denied");
     handleWatcherEvents := fun _ _ => Returns None;
     createContexts := fun _ c => Returns c;
     updateContexts := fun _ c => Returns c;
     startFileWatcherOutcome := fun _ => Returns tt;
     buildForBundle := @buildForBundle sampleCollaborators;
     bundleOutput := @bundleOutput sampleCollaborators |}.

(** The sample watcher with listener [7] registered for batches. *)
Definition sampleListening : Watcher := exec (onEvent 7) sampleWatcher.


(** The sample watcher once started. *)
Definition sampleReady : Watcher :=
  exec (onStart 1;; run (@start sampleCollaborators)) sampleWatcher.


(** ** Sessions *)

(** What happens to a watcher from the outside: a call of one of its three
    public methods, or the file watcher handing raw events to the callback
    it was given.  A session is a list of such operations, each run to its
    end before the next; a call of [start] that rejects leaves the watcher
    as it is then, and the session goes on.  The callback is run whenever
    events are handed over, subscribed or not, so what holds of all
    sessions holds of those in which events only come after [start]. *)
Section Sessions.
Context `{Collaborators}.

Inductive Op :=
| CallStart
| CallOnStart (listener : Listener)
| CallOnEvent (listener : Listener)
| FileEvents (events : list WatcherEvent).

Definition perform (op : Op) : M unit :=
  match op with
  | CallStart => run start
  | CallOnStart listener => onStart listener
  | CallOnEvent listener => onEvent listener
  | FileEvents events => onWatcherEvents events
  end.

Definition session (ops : list Op) : M unit :=
  sequence ((fun op => try_catch (perform op) (fun _ => mret tt)) <$> ops).

End Sessions.

(** The calls of a log that are for [event]. *)
Definition callsFor (event : string) (t : list Effect) : list (Listener * option AppEvent) :=
  (fun c => (c.1.2, c.2)) <$> filter (fun c => c.1.1 = event) (calls t).

(** The options of the bundling calls of a log, with their directories. *)
Definition bundleOf (e : Effect) : option (string * ExtensionBuildOptions * string) :=
  match e with
  | BuildForBundle h options dir => Some (h, options, dir)
  | _ => None
  end.

Definition bundles (t : list Effect) : list (string * ExtensionBuildOptions * string) :=
  omap bundleOf t.


(** A call a watcher in state [w] may have made: the start event, without
    argument, to a listener registered for it on a watcher that is ready, or
    a batch to a listener registered for batches. *)
Definition legitimate (w : Watcher) (c : string * Listener * option AppEvent) : Prop :=
  (c.1.1 = "ready" /\ c.2 = None /\ c.1.2 ∈ listenersOf "ready" w /\ ready w = true)
  \/ (c.1.1 = "all" /\ is_Some c.2 /\ c.1.2 ∈ listenersOf "all" w).

(** A sample session of operations: two registrations around two starts and
    the file watcher handing over events in between. *)
Definition sampleOps : list (@Op sampleCollaborators) :=
  [ CallOnStart 1; CallOnEvent 7; @FileEvents sampleCollaborators [tt]; CallStart;
    @FileEvents sampleCollaborators []; CallStart; CallOnStart 2 ].

(** * The string helpers of [packages/cli-kit/src/public/common/string.ts] *)

(** A JavaScript string is the sequence of its UTF-16 code units; [units]
    gives the code units of an ASCII literal. *)
Definition units (s : string) : list N :=
  Ascii.N_of_ascii <$> String.list_ascii_of_string s.

(** [Array.prototype.join] on strings of code units. *)
Fixpoint joinUnits (sep : list N) (l : list (list N)) : list N :=
  match l with
  | [] => []
  | [s] => s
  | s :: rest => s ++ sep ++ joinUnits sep rest
  end%list.

(** The characters of the class [[.*+?^${}()|[\]\\]] and the backslash. *)
Definition regExpSpecials : list N := units ".*+?^${}()|[]\".
Definition backslash : N := 92%N.

(** [escapeRegExp(str)]: [str.replace(/[.*+?^${}()|[\]\\]/g, '\\$&')], every
    match replaced by a backslash and the match. *)
Definition escapeRegExp (str : list N) : list N :=
  concat ((fun c => if bool_decide (c ∈ regExpSpecials) then [backslash; c] else [c])
            <$> str).

(** A string in which every special character is escaped: ordinary
    characters and pairs of a backslash and a special character. *)
Inductive Escaped : list N -> Prop :=
| Escaped_nil : Escaped []
| Escaped_plain c l : c ∉ regExpSpecials -> Escaped l -> Escaped (c :: l)
| Escaped_pair c l : c ∈ regExpSpecials -> Escaped l -> Escaped (backslash :: c :: l).

(** The template [`"${item}"`]. *)
Definition quoted (item : list N) : list N := (units (String (Ascii.ascii_of_nat 34) "") ++ item
                                               ++ units (String (Ascii.ascii_of_nat 34) ""))%list.

(** [joinWithAnd(items)]; the two indexed reads are within the array. *)
Definition joinWithAnd (items : list (list N)) : list N :=
  if bool_decide (length items = 0) then []
  else if bool_decide (length items = 1) then quoted (default [] (items !! 0))
  else (joinUnits (units ", ") (quoted <$> take (length items - 1) items)
        ++ units " and " ++ quoted (default [] (items !! (length items - 1))))%list.

(** [WhiteSpace] and [LineTerminator] of ECMAScript, the code units that
    [String.prototype.trim] strips. *)
Definition isWhiteSpace (c : N) : bool :=
  bool_decide (c ∈ [9; 10; 11; 12; 13; 32; 160; 5760; 8232; 8233; 8239; 8287;
                    12288; 65279]%N)
  || ((8192 <=? c)%N && (c <=? 8202)%N).

Fixpoint trimStart (s : list N) : list N :=
  match s with
  | c :: rest => if isWhiteSpace c then trimStart rest else s
  | [] => []
  end.

Definition trimEnd (s : list N) : list N := reverse (trimStart (reverse s)).

(** [String.prototype.trim]. *)
Definition trim (s : list N) : list N := trimEnd (trimStart s).

(** [sep] stands at the front of [s]. *)
Fixpoint startsWith (sep s : list N) : bool :=
  match sep, s with
  | [], _ => true
  | x :: sep', y :: s' => bool_decide (x = y) && startsWith sep' s'
  | _ :: _, [] => false
  end.

(** [String.prototype.split] with a separator that is not empty, scanning
    from the left: [piece] holds, reversed, the characters since the last
    separator and [skip] counts the characters of a separator just found
    that are still to be passed. *)
Fixpoint splitFrom (sep : list N) (skip : nat) (piece : list N) (s : list N)
    : list (list N) :=
  match s with
  | [] => [reverse piece]
  | c :: rest =>
      match skip with
      | S k => splitFrom sep k piece rest
      | 0 =>
          if startsWith sep s
          then reverse piece :: splitFrom sep (length sep - 1) [] rest
          else splitFrom sep 0 (c :: piece) rest
      end
  end.

(** [String.prototype.split]: with the empty separator the code units of
    the string, one by one. *)
Definition split (sep s : list N) : list (list N) :=
  match sep with
  | [] => (fun c => [c]) <$> s
  | _ :: _ => splitFrom sep 0 [] s
  end.

(** The order of [Array.prototype.sort] without comparator: strings by
    their code units, a prefix first. *)
Fixpoint unitsLe (a b : list N) : bool :=
  match a, b with
  | [], _ => true
  | _ :: _, [] => false
  | x :: a', y :: b' =>
      if (x <? y)%N then true else if (y <? x)%N then false else unitsLe a' b'
  end.

Fixpoint insertSorted (x : list N) (l : list (list N)) : list (list N) :=
  match l with
  | [] => [x]
  | y :: rest => if unitsLe x y then x :: l else y :: insertSorted x rest
  end.

(** [Array.prototype.sort] without comparator; strings that compare equal
    are the same string, so every sorting algorithm gives this list. *)
Definition sort (l : list (list N)) : list (list N) := foldr insertSorted [] l.

(** [[...new Set(l)]]: the first occurrence of each string, in order. *)
Fixpoint unique (seen l : list (list N)) : list (list N) :=
  match l with
  | [] => []
  | x :: rest =>
      if bool_decide (x ∈ seen) then unique seen rest else x :: unique (x :: seen) rest
  end.

(** [normalizeDelimitedString(delimitedString?, delimiter = ',')]. *)
Definition normalizeDelimitedString (delimitedString : option (list N))
    (delimiter : option (list N)) : option (list N) :=
  match delimitedString with
  | None | Some [] => None
  | Some str =>
      let delimiter := default (units ",") delimiter in
      let items := trim <$> split delimiter str in
      let nonEmptyItems := filter (fun value => value <> []) items in
      let sortedItems := sort nonEmptyItems in
      let uniqueSortedItems := unique [] sortedItems in
      Some (joinUnits delimiter uniqueSortedItems)
  end.

(** The tokens of a string: its pieces between delimiters, trimmed, that
    are not empty. *)
Definition isToken (delimiter str token : list N) : Prop :=
  token <> [] /\ exists piece, piece ∈ split delimiter str /\ token = trim piece.

(** Strictly ascending in the order of the code units. *)
Fixpoint ascending (l : list (list N)) : Prop :=
  match l with
  | [] => True
  | x :: rest => Forall (fun y => unitsLe x y = true /\ x <> y) rest /\ ascending rest
  end.

(** Without white space at either end. *)
Definition trimmed (s : list N) : Prop :=
  (forall c, head s = Some c -> isWhiteSpace c = false)
  /\ (forall c, last s = Some c -> isWhiteSpace c = false).

(** Ascending, equal neighbours allowed. *)
Fixpoint nondecreasing (l : list (list N)) : Prop :=
  match l with
  | [] => True
  | x :: rest => Forall (fun y => unitsLe x y = true) rest /\ nondecreasing rest
  end.

(** ** General lemmas *)

Lemma set_trace_set_trace t1 t2 w : set_trace t2 (set_trace t1 w) = set_trace t2 w.
Proof. by destruct w. Qed.

Lemma set_trace_id w : set_trace (trace w) w = w.
Proof. by destruct w. Qed.

Lemma set_disk_id w : set_disk (disk w) w = w.
Proof. by destruct w. Qed.

Ltac run :=
  unfold outputDebug, stderr_write; unfold log;
  unfold mbind, M_bind, mret, M_ret, this, modify, throw, await.

Ltac fields :=
  lazy beta iota delta
    [set_app set_contexts set_started set_ready set_listeners set_disk set_trace
     buildOutputPath app appURL contexts started ready listeners disk trace].

Lemma bind_eq {A B} (m : M A) (k : A -> M B) w a w' :
  m w = (Returns a, w') -> (m ≫= k) w = k a w'.
Proof. unfold mbind, M_bind. by intros ->. Qed.

Lemma bind_throws {A B} (m : M A) (k : A -> M B) w e w' :
  m w = (Throws e, w') -> (m ≫= k) w = (Throws e, w').
Proof. unfold mbind, M_bind. by intros ->. Qed.

Lemma bind_this {A} (k : Watcher -> M A) w : (this ≫= k) w = k w w.
Proof. done. Qed.

Lemma bind_modify {A} (f : Watcher -> Watcher) (k : unit -> M A) w :
  (modify f ≫= k) w = k tt (f w).
Proof. done. Qed.

Lemma bind_log {A} (e : Effect) (k : unit -> M A) w :
  (log e ≫= k) w = k tt (set_trace (trace w ++ [e]) w).
Proof. done. Qed.

Lemma bind_await {A B} (a : A) (k : A -> M B) w : (await (Returns a) ≫= k) w = k a w.
Proof. done. Qed.

Lemma try_catch_returns {A} (m : M A) (h : JsError -> M A) w a w' :
  m w = (Returns a, w') -> try_catch m h w = (Returns a, w').
Proof. unfold try_catch. by intros ->. Qed.

Lemma try_catch_throws {A} (m : M A) (h : JsError -> M A) w e w' :
  m w = (Throws e, w') -> try_catch m h w = h e w'.
Proof. unfold try_catch. by intros ->. Qed.

Section Build.
Context `{Collaborators}.

Lemma buildOne_unfold ext w :
  buildOne ext w =
    (Returns (resultOf w ext),
     set_disk (writesOf w ext (disk w)) (set_trace (trace w ++ effectsOf w ext) w)).
Proof.
  unfold buildOne, useConcurrentOutputContext, try_catch, buildExtension,
    extension_buildForBundle, context_rebuild, resultOf, effectsOf, writesOf,
    optionsOf, settle.
  run. destruct w as [p a u c s r l d t]; simpl.
  destruct (c !! handle ext) as [ctx|]; simpl.
  - destruct (rebuild ctx) as [res|e]; simpl.
    + destruct (errors res) as [|m ms]; simpl; by rewrite <- app_assoc.
    + by rewrite <- app_assoc.
  - destruct (buildForBundle ext _ p) as [[]|e]; simpl; by rewrite <- app_assoc.
Qed.

Lemma resultOf_same w1 w2 ext :
  set_trace [] (set_disk ∅ w1) = set_trace [] (set_disk ∅ w2) ->
  resultOf w1 ext = resultOf w2 ext.
Proof. destruct w1, w2. unfold set_trace, set_disk. simpl. by intros [= -> -> -> -> -> -> ->]. Qed.

Lemma effectsOf_same w1 w2 ext :
  set_trace [] (set_disk ∅ w1) = set_trace [] (set_disk ∅ w2) ->
  effectsOf w1 ext = effectsOf w2 ext.
Proof. destruct w1, w2. unfold set_trace, set_disk. simpl. by intros [= -> -> -> -> -> -> ->]. Qed.

Lemma writesOf_same w1 w2 ext :
  set_trace [] (set_disk ∅ w1) = set_trace [] (set_disk ∅ w2) ->
  writesOf w1 ext = writesOf w2 ext.
Proof. destruct w1, w2. unfold set_trace, set_disk. simpl. by intros [= -> -> -> -> -> -> ->]. Qed.

Lemma builtDisk_same w1 w2 exts d :
  set_trace [] (set_disk ∅ w1) = set_trace [] (set_disk ∅ w2) ->
  builtDisk w1 exts d = builtDisk w2 exts d.
Proof.
  intros Hsame. unfold builtDisk. revert d.
  induction exts as [|x exts IH]; intros d; [done|].
  simpl. by rewrite (writesOf_same w1 w2 x Hsame), IH.
Qed.

Lemma buildExtensions_unfold exts w :
  buildExtensions exts w =
    (Returns (resultOf w <$> exts),
     set_disk (builtDisk w exts (disk w))
       (set_trace (trace w ++ concat (effectsOf w <$> exts)) w)).
Proof.
  unfold buildExtensions, builtDisk. revert w.
  induction exts as [|ext exts IH]; intros w.
  - simpl. by rewrite app_nil_r, set_trace_id, set_disk_id.
  - cbn [fmap list_fmap Promise_all concat foldl].
    rewrite buildOne_unfold.
    change (list_fmap _ _ buildOne exts) with (buildOne <$> exts).
    rewrite IH.
    set (w1 := set_disk _ (set_trace _ w)).
    assert (Hsame : set_trace [] (set_disk ∅ w1) = set_trace [] (set_disk ∅ w))
      by (by destruct w).
    assert (Hr : resultOf w1 <$> exts = resultOf w <$> exts).
    { apply list_fmap_ext; intros _ e _. by apply resultOf_same. }
    assert (He : effectsOf w1 <$> exts = effectsOf w <$> exts).
    { apply list_fmap_ext; intros _ e _. by apply effectsOf_same. }
    pose proof (fun d => builtDisk_same w1 w exts d Hsame) as Hw.
    unfold builtDisk in Hw.
    rewrite Hr, He, Hw. subst w1. destruct w; simpl. by rewrite <- app_assoc.
Qed.

Lemma eval_buildExtensions exts w :
  eval (buildExtensions exts) w = Returns (resultOf w <$> exts).
Proof. unfold eval. by rewrite buildExtensions_unfold. Qed.

Lemma eval_buildOne ext w : eval (buildOne ext) w = Returns (resultOf w ext).
Proof. unfold eval. by rewrite buildOne_unfold. Qed.

Lemma handleOf_resultOf w ext : handleOf (resultOf w ext) = handle ext.
Proof.
  unfold resultOf, settle.
  destruct (contexts w !! handle ext) as [c|].
  - destruct (rebuild c) as [r|e]; [destruct (errors r)|]; done.
  - by destruct (buildForBundle ext _ _).
Qed.

Lemma resultOf_throws w ext e :
  buildThrows w ext e -> resultOf w ext = status_error (message e) (handle ext).
Proof.
  unfold buildThrows, resultOf, settle.
  destruct (contexts w !! handle ext) as [c|]; by intros ->.
Qed.

Lemma resultOf_succeeds w ext :
  buildSucceeds w ext -> resultOf w ext = status_ok (handle ext).
Proof.
  unfold buildSucceeds, resultOf, settle.
  destruct (contexts w !! handle ext) as [c|].
  - by intros (r & -> & ->).
  - by intros ->.
Qed.

End Build.

(** ** The build dispatcher *)

(** C1. For every list of extensions [buildExtensions] resolves, never
    rejects, and resolves to one result per extension: as many results as
    extensions, the i-th bearing the handle of the i-th extension and being
    the result that extension gets when built alone.  When the backend of an
    extension throws, its result is the error result carrying the message of
    the exception, whatever the other extensions do. *)
Theorem buildExtensions_one_result_each `{Collaborators} (extensions : list ExtensionInstance) (w : Watcher) :
  exists results,
    eval (buildExtensions extensions) w = Returns results
    /\ length results = length extensions
    /\ handleOf <$> results = handle <$> extensions
    /\ Forall2 (fun ext r => eval (buildOne ext) w = Returns r) extensions results
    /\ forall i ext e,
         extensions !! i = Some ext -> buildThrows w ext e ->
         results !! i = Some (status_error (message e) (handle ext)).
Proof.
  exists (resultOf w <$> extensions).
  split; [apply eval_buildExtensions|].
  split; [apply length_fmap|].
  split.
  { rewrite <- list_fmap_compose. apply list_fmap_ext.
    intros _ ext _. apply handleOf_resultOf. }
  split.
  { apply Forall2_fmap_r, Forall_Forall2_diag, Forall_forall.
    intros ext _. apply eval_buildOne. }
  intros i ext e Hi He.
  rewrite list_lookup_fmap, Hi. simpl. f_equal. by apply resultOf_throws.
Qed.

Lemma buildExtensions_one_result_each_witness :
  exists results,
    eval (@buildExtensions sampleCollaborators [sampleX; sampleY]) sampleWatcher
      = Returns results
    /\ length results = 2
    /\ results !! 0 = Some (status_error "boom" "x").
Proof.
  destruct (@buildExtensions_one_result_each sampleCollaborators
              [sampleX; sampleY] sampleWatcher)
    as (results & Hr & Hl & _ & _ & Hthrow).
  exists results. split; [exact Hr|]. split; [exact Hl|].
  apply (Hthrow 0 sampleX (mkError "boom")); reflexivity.
Defined.

(** C5. When an extension [X] without esbuild context and an extension [Y]
    are built by the same call, the bundling of [X] throws an error with
    message [msg] (["boom"], say) and the build of [Y] succeeds, the results
    of the call hold both the error result of [X] with that very message and
    the ok result of [Y]. *)
Theorem buildExtensions_error_beside_ok `{Collaborators}
    (extensions : list ExtensionInstance) (w : Watcher)
    (X Y : ExtensionInstance) (msg : string) :
  X ∈ extensions -> Y ∈ extensions ->
  contexts w !! handle X = None ->
  buildForBundle X (optionsOf w) (buildOutputPath w) = Throws (mkError msg) ->
  buildSucceeds w Y ->
  exists results,
    eval (buildExtensions extensions) w = Returns results
    /\ status_error msg (handle X) ∈ results
    /\ status_ok (handle Y) ∈ results.
Proof.
  intros HX HY Hctx Hboom Hok.
  exists (resultOf w <$> extensions).
  split; [apply eval_buildExtensions|]. split.
  - apply list_elem_of_fmap. exists X. split; [|done].
    symmetry. apply (resultOf_throws w X (mkError msg)).
    unfold buildThrows. by rewrite Hctx.
  - apply list_elem_of_fmap. exists Y. split; [|done].
    symmetry. by apply resultOf_succeeds.
Qed.

Lemma buildExtensions_error_beside_ok_witness :
  exists results,
    eval (@buildExtensions sampleCollaborators [sampleX; sampleY]) sampleWatcher
      = Returns results
    /\ status_error "boom" "x" ∈ results
    /\ status_ok "y" ∈ results.
Proof.
  apply (@buildExtensions_error_beside_ok sampleCollaborators
           [sampleX; sampleY] sampleWatcher
           sampleX sampleY "boom").
  - apply list_elem_of_here.
  - apply list_elem_of_further, list_elem_of_here.
  - reflexivity.
  - reflexivity.
  - reflexivity.
Defined.

Lemma elem_of_effects `{Collaborators} e w exts :
  e ∈ concat (effectsOf w <$> exts) <->
  exists ext, ext ∈ exts /\ e ∈ effectsOf w ext.
Proof.
  induction exts as [|x exts IH]; cbn [fmap list_fmap concat].
  - split; [by intros ?%elem_of_nil | by intros (? & ?%elem_of_nil & _)].
  - change (list_fmap _ _ (effectsOf w) exts) with (effectsOf w <$> exts).
    rewrite elem_of_app, IH. split.
    + intros [He|(ext & Hext & He)].
      * exists x. split; [apply list_elem_of_here | done].
      * exists ext. split; [by apply list_elem_of_further | done].
    + intros (ext & Hext & He). apply elem_of_cons in Hext as [->|Hext].
      * by left.
      * right. by exists ext.
Qed.

(** C6. An extension with a live esbuild context is built by the rebuild of
    that context and not by [buildForBundle]; the call leaves the watcher
    as it was but for the log and for what the builds write.  When the
    rebuild returns, the
    result of the extension is the error result whose message is the texts
    of the reported errors joined by line feeds if there is at least one
    error, and the ok result otherwise. *)
Theorem buildExtensions_rebuilds_live_context `{Collaborators}
    (extensions : list ExtensionInstance) (w : Watcher)
    (i : nat) (ext : ExtensionInstance) (context : BuildContext) :
  extensions !! i = Some ext ->
  contexts w !! handle ext = Some context ->
  exists results t,
    buildExtensions extensions w
      = (Returns results,
         set_disk (builtDisk w extensions (disk w)) (set_trace (trace w ++ t) w))
    /\ Rebuild (handle ext) ∈ t
    /\ (forall options dir, BuildForBundle (handle ext) options dir ∉ t)
    /\ forall result, rebuild context = Returns result ->
         results !! i =
           Some match errors result with
                | [] => status_ok (handle ext)
                | errs => status_error (join newline (text <$> errs)) (handle ext)
                end.
Proof.
  intros Hi Hctx.
  exists (resultOf w <$> extensions), (concat (effectsOf w <$> extensions)).
  split; [apply buildExtensions_unfold|]. split; [|split].
  - apply elem_of_effects. exists ext. split.
    + by eapply list_elem_of_lookup_2.
    + unfold effectsOf. rewrite Hctx.
      apply list_elem_of_further, list_elem_of_here.
  - intros options dir Hin. apply elem_of_effects in Hin.
    destruct Hin as (ext' & _ & Hin). unfold effectsOf in Hin.
    destruct (contexts w !! handle ext') as [c|] eqn:Hc.
    + apply list_elem_of_In in Hin. simpl in Hin.
      by destruct Hin as [Hin|[Hin|[]]].
    + apply list_elem_of_In in Hin. simpl in Hin.
      destruct Hin as [Hin|[Hin|[]]]; [discriminate|].
      injection Hin as Hh Ho Hd. rewrite Hh, Hctx in Hc. discriminate.
  - intros result Hres.
    rewrite list_lookup_fmap, Hi. simpl. f_equal.
    unfold resultOf. by rewrite Hctx, Hres.
Qed.

Lemma buildExtensions_rebuilds_live_context_witness :
  exists results t,
    @buildExtensions sampleCollaborators [sampleY; sampleZ] sampleLive
      = (Returns results,
         set_disk (@builtDisk sampleCollaborators sampleLive [sampleY; sampleZ]
                     (disk sampleLive))
           (set_trace (trace sampleLive ++ t) sampleLive))
    /\ Rebuild "z" ∈ t
    /\ results !! 1 = Some (status_error (join newline ["e1"; "e2"]) "z").
Proof.
  destruct (@buildExtensions_rebuilds_live_context sampleCollaborators
              [sampleY; sampleZ] sampleLive
              1 sampleZ sampleContext eq_refl eq_refl)
    as (results & t & Hrun & Hre & _ & Hres).
  exists results, t. split; [exact Hrun|]. split; [exact Hre|].
  exact (Hres _ eq_refl).
Defined.

(** ** The build output store *)

Lemma elem_of_remove_tree q p (d : gset string) :
  q ∈ remove_tree p d <-> inside p q = false /\ q ∈ d.
Proof. unfold remove_tree. by rewrite elem_of_filter. Qed.

Lemma remove_tree_absent p (d : gset string) :
  (forall q, q ∈ d -> inside p q = false) -> remove_tree p d = d.
Proof.
  intros Hd. apply set_eq. intros q. rewrite elem_of_remove_tree.
  split; [by intros [_ ?] | intros Hq; split; [by apply Hd | done]].
Qed.

(** What is left of a disk once the output of each extension is removed. *)
Lemma elem_of_purged q (paths : list string) (d : gset string) :
  q ∈ foldl (fun d p => remove_tree p d) d paths <->
  q ∈ d /\ forall p, p ∈ paths -> inside p q = false.
Proof.
  revert d. induction paths as [|p paths IH]; intros d; simpl.
  - split; [intros Hq; split; [done|by intros p ?%elem_of_nil] | by intros [? _]].
  - rewrite IH, elem_of_remove_tree. split.
    + intros [[Hp Hq] Hrest]. split; [done|].
      intros p' [->|Hp']%elem_of_cons; [done | by apply Hrest].
    + intros [Hq Hall]. split; [split; [|done]|].
      * apply Hall, list_elem_of_here.
      * intros p' Hp'. by apply Hall, list_elem_of_further.
Qed.

Lemma rmdir_force_unfold p w :
  rmdir p true w =
    (Returns tt,
     set_disk (remove_tree p (disk w)) (set_trace (trace w ++ [Rmdir p true]) w)).
Proof. by destruct w. Qed.

(** Without [force] a missing directory is an error: the flag matters. *)
Lemma rmdir_missing_unforced p w :
  p ∉ disk w -> eval (rmdir p false) w = Throws (mkError ("ENOENT: no such file or directory, " ++ p)).
Proof.
  intros Hp. unfold eval, rmdir. run. cbn [orb].
  destruct w as [b a u c s r l d t]. cbn [disk set_trace] in *.
  by rewrite bool_decide_eq_false_2.
Qed.

Lemma deleteOne_unfold ext w :
  deleteOne ext w =
    (Returns tt,
     set_disk (remove_tree (outputPathOf w ext) (disk w))
       (set_trace (trace w ++ [Rmdir (outputPathOf w ext) true]) w)).
Proof. by destruct w. Qed.

Lemma Promise_all_deleteOne exts p a u c s r l d t :
  Promise_all (deleteOne <$> exts) (mkWatcher p a u c s r l d t) =
    (Returns (const tt <$> exts),
     mkWatcher p a u c s r l
       (foldl (fun d p => remove_tree p d) d
          ((fun ext => joinPath [p; getOutputFolderId ext]) <$> exts))
       (t ++ ((fun ext => Rmdir (joinPath [p; getOutputFolderId ext]) true) <$> exts))).
Proof.
  revert d t. induction exts as [|ext exts IH]; intros d t.
  - simpl. by rewrite app_nil_r.
  - cbn [fmap list_fmap Promise_all foldl].
    change (list_fmap _ _ ?f exts) with (f <$> exts).
    rewrite deleteOne_unfold. unfold outputPathOf, set_disk, set_trace.
    cbn [buildOutputPath app appURL contexts started ready listeners disk trace].
    rewrite IH. by rewrite <- app_assoc.
Qed.

Lemma deleteExtensionsBuildOutput_unfold exts w :
  deleteExtensionsBuildOutput exts w =
    (Returns tt,
     set_disk (foldl (fun d p => remove_tree p d) (disk w) (outputPathOf w <$> exts))
       (set_trace (trace w ++ ((fun ext => Rmdir (outputPathOf w ext) true) <$> exts)) w)).
Proof.
  unfold deleteExtensionsBuildOutput. destruct w as [p a u c s r l d t].
  run. by rewrite Promise_all_deleteOne.
Qed.

(** C8. Deleting the build output of any extensions succeeds on every disk,
    so also where the output directory of an extension is not there (because
    it never was, or because it was deleted before); where none of the
    directories is there the disk stays as it is, and deleting the output of
    the same extensions a second time leaves the disk as the first time
    left it. *)
Theorem deleteExtensionsBuildOutput_idempotent
    (extensions : list ExtensionInstance) (w : Watcher) :
  eval (deleteExtensionsBuildOutput extensions) w = Returns tt
  /\ eval (deleteExtensionsBuildOutput extensions)
          (exec (deleteExtensionsBuildOutput extensions) w) = Returns tt
  /\ disk (exec (deleteExtensionsBuildOutput extensions)
             (exec (deleteExtensionsBuildOutput extensions) w))
     = disk (exec (deleteExtensionsBuildOutput extensions) w)
  /\ ((forall ext q, ext ∈ extensions -> q ∈ disk w ->
         inside (outputPathOf w ext) q = false) ->
      disk (exec (deleteExtensionsBuildOutput extensions) w) = disk w).
Proof.
  unfold eval, exec. rewrite !deleteExtensionsBuildOutput_unfold.
  split; [done|]. split; [done|]. split.
  - destruct w as [p a u c s r l d t]. cbn -[remove_tree].
    apply set_eq. intros q. rewrite !elem_of_purged. tauto.
  - intros Habsent. destruct w as [p a u c s r l d t]. cbn -[remove_tree].
    apply set_eq. intros q. rewrite elem_of_purged. split; [by intros [? _]|].
    intros Hq. split; [done|].
    intros p' (ext & -> & Hext)%list_elem_of_fmap. by apply (Habsent ext q).
Qed.

Lemma deleteExtensionsBuildOutput_idempotent_witness :
  disk (exec (deleteExtensionsBuildOutput [sampleX]) sampleWatcher) = disk sampleWatcher.
Proof.
  apply (deleteExtensionsBuildOutput_idempotent [sampleX] sampleWatcher).
  intros ext q Hext Hq.
  apply list_elem_of_singleton in Hext as ->.
  unfold sampleWatcher, new_AppEventWatcher in Hq. cbn [disk] in Hq.
  rewrite !elem_of_union, !elem_of_singleton in Hq.
  destruct Hq as [[-> | ->] | ->]; reflexivity.
Defined.

(** ** Logs of builds and of deletions *)

Lemma built_app t1 t2 : built (t1 ++ t2) = (built t1 ++ built t2)%list.
Proof. apply omap_app. Qed.
Lemma removed_app t1 t2 : removed (t1 ++ t2) = (removed t1 ++ removed t2)%list.
Proof. apply omap_app. Qed.
Lemma calls_app t1 t2 : calls (t1 ++ t2) = (calls t1 ++ calls t2)%list.
Proof. apply omap_app. Qed.

Lemma built_effects `{Collaborators} w exts : built (concat (effectsOf w <$> exts)) = handle <$> exts.
Proof.
  induction exts as [|ext exts IH]; [done|].
  cbn [fmap list_fmap concat]. rewrite built_app, IH.
  unfold effectsOf. by destruct (contexts w !! handle ext).
Qed.

Lemma removed_effects `{Collaborators} w exts : removed (concat (effectsOf w <$> exts)) = [].
Proof.
  induction exts as [|ext exts IH]; [done|].
  cbn [fmap list_fmap concat]. rewrite removed_app, IH.
  unfold effectsOf. by destruct (contexts w !! handle ext).
Qed.

Lemma calls_effects `{Collaborators} w exts : calls (concat (effectsOf w <$> exts)) = [].
Proof.
  induction exts as [|ext exts IH]; [done|].
  cbn [fmap list_fmap concat]. rewrite calls_app, IH.
  unfold effectsOf. by destruct (contexts w !! handle ext).
Qed.



Lemma calls_rmdirs (f : ExtensionInstance -> string) exts :
  calls ((fun ext => Rmdir (f ext) true) <$> exts) = [].
Proof. by induction exts. Qed.

Lemma built_calls event arg (ls : list Listener) :
  built ((fun l => Call event l arg) <$> ls) = [].
Proof. by induction ls. Qed.

Lemma removed_calls event arg (ls : list Listener) :
  removed ((fun l => Call event l arg) <$> ls) = [].
Proof. by induction ls. Qed.

Lemma calls_calls event arg (ls : list Listener) :
  calls ((fun l => Call event l arg) <$> ls) = (fun l => (event, l, arg)) <$> ls.
Proof. induction ls as [|l ls IH]; [done|]. simpl. by f_equal. Qed.

(** ** The handler of a batch *)

Section Batch.
Context `{Collaborators}.

Lemma handleAppEvent_nothing w : handleAppEvent (Returns None) w = (Returns tt, w).
Proof. done. Qed.

Lemma handleAppEvent_rejected e w :
  handleAppEvent (Throws e) w =
    (Returns tt,
     set_trace (trace w ++ [StderrWrite ("Error handling event: " ++ message e)]) w).
Proof. done. Qed.

Lemma handleAppEvent_no_events appEvent w :
  extensionEvents appEvent = [] ->
  handleAppEvent (Returns (Some appEvent)) w =
    (Returns tt,
     set_trace (trace w ++ [OutputDebug "Change detected, but no extensions were affected"])
       (set_app (ev_app appEvent) w)).
Proof.
  intros Hnone. unfold handleAppEvent.
  apply try_catch_returns.
  rewrite bind_await, bind_modify, Hnone. reflexivity.
Qed.

Lemma updateContexts_unfold appEvent w :
  esbuildManager_updateContexts appEvent w =
    match updateContexts appEvent (contexts w) with
    | Returns c =>
        (Returns tt, set_contexts c (set_trace (trace w ++ [UpdateContexts appEvent]) w))
    | Throws e => (Throws e, set_trace (trace w ++ [UpdateContexts appEvent]) w)
    end.
Proof.
  unfold esbuildManager_updateContexts.
  rewrite bind_log, bind_this.
  replace (contexts (set_trace (trace w ++ [UpdateContexts appEvent]) w))
    with (contexts w) by (by destruct w).
  by destruct (updateContexts appEvent (contexts w)).
Qed.

Lemma handleAppEvent_update_fails appEvent w e :
  extensionEvents appEvent <> [] ->
  updateContexts appEvent (contexts w) = Throws e ->
  handleAppEvent (Returns (Some appEvent)) w =
    (Returns tt,
     set_trace (trace w ++ [UpdateContexts appEvent;
                            StderrWrite ("Error handling event: " ++ message e)])
       (set_app (ev_app appEvent) w)).
Proof.
  intros Hsome Hupd. unfold handleAppEvent.
  erewrite try_catch_throws; last first.
  { rewrite bind_await, bind_modify.
    rewrite bool_decide_eq_false_2 by (by destruct (extensionEvents appEvent)).
    apply bind_throws. rewrite updateContexts_unfold.
    replace (contexts (set_app (ev_app appEvent) w)) with (contexts w) by (by destruct w).
    rewrite Hupd. reflexivity. }
  destruct w as [p a u c s r l d t]. unfold stderr_write, log, modify, set_trace, set_app.
  fields. by rewrite <- app_assoc.
Qed.

Lemma handleAppEvent_processed appEvent w c :
  extensionEvents appEvent <> [] ->
  updateContexts appEvent (contexts w) = Returns c ->
  handleAppEvent (Returns (Some appEvent)) w =
    (Returns tt,
     set_trace
       (trace w ++
          ([UpdateContexts appEvent]
           ++ concat (effectsOf (updated appEvent c w) <$> createdOrUpdatedExtensions appEvent)
           ++ ((fun ext => Rmdir (outputPathOf w ext) true) <$> deletedExtensions appEvent))
          ++ ((fun l => Call "all" l (Some appEvent)) <$> listenersOf "all" w))
       (set_disk (batchDisk appEvent c w) (updated appEvent c w))).
Proof.
  intros Hsome Hupd. unfold handleAppEvent.
  apply try_catch_returns.
  rewrite bind_await, bind_modify.
  rewrite bool_decide_eq_false_2 by (by destruct (extensionEvents appEvent)).
  destruct w as [p a u cs s r l d t]. fields. lazy delta [contexts] beta iota in Hupd.
  erewrite bind_eq; last first.
  { rewrite updateContexts_unfold. fields. rewrite Hupd. reflexivity. }
  erewrite bind_eq; [|apply buildExtensions_unfold]. fields.
  erewrite bind_eq; [|apply deleteExtensionsBuildOutput_unfold].
  unfold emit, modify, batchWork, batchDisk, outputPathOf, listenersOf, updated.
  fields.
  set (w1 := mkWatcher p (ev_app appEvent) u c s r l d (t ++ [UpdateContexts appEvent])).
  set (w2 := mkWatcher p (ev_app appEvent) u c s r l d t).
  assert (Hsame : set_trace [] (set_disk ∅ w1) = set_trace [] (set_disk ∅ w2)) by done.
  rewrite (builtDisk_same _ _ _ _ Hsame).
  replace (effectsOf w1 <$> createdOrUpdatedExtensions appEvent)
    with (effectsOf w2 <$> createdOrUpdatedExtensions appEvent).
  2: { apply list_fmap_ext; intros _ e _. symmetry. by apply effectsOf_same. }
  do 2 f_equal. by rewrite <- !app_assoc.
Qed.
End Batch.



Lemma calls_batchWork `{Collaborators} appEvent c w : calls (batchWork appEvent c w) = [].
Proof. unfold batchWork. by rewrite !calls_app, calls_effects, calls_rmdirs. Qed.


Section BatchClaims.
Context `{Collaborators}.

(** C4. A batch without extension events makes the handler write one
    debug line and nothing else: no build, no deletion, no call to a
    listener, and the disk, the contexts and the listeners are as
    before. *)
Theorem handleAppEvent_quiet_batch (appEvent : AppEvent) (w : Watcher) :
  extensionEvents appEvent = [] ->
  eval (handleAppEvent (Returns (Some appEvent))) w = Returns tt
  /\ trace (exec (handleAppEvent (Returns (Some appEvent))) w)
     = (trace w ++ [OutputDebug "Change detected, but no extensions were affected"])%list
  /\ disk (exec (handleAppEvent (Returns (Some appEvent))) w) = disk w
  /\ contexts (exec (handleAppEvent (Returns (Some appEvent))) w) = contexts w
  /\ listeners (exec (handleAppEvent (Returns (Some appEvent))) w) = listeners w.
Proof.
  intros Hnone. unfold eval, exec.
  rewrite (handleAppEvent_no_events _ _ Hnone). by destruct w.
Qed.

(** C10. Every batch that is not null replaces the app the watcher holds
    by the app of the batch, and it does so before looking at the events:
    a batch without events leaves the watcher with the new app and with
    one more debug line in its log, nothing built, deleted or notified. *)
Theorem handleAppEvent_replaces_app (appEvent : AppEvent) (w : Watcher) :
  app (exec (handleAppEvent (Returns (Some appEvent))) w) = ev_app appEvent
  /\ (extensionEvents appEvent = [] ->
      exec (handleAppEvent (Returns (Some appEvent))) w
      = set_app (ev_app appEvent)
          (exec (outputDebug "Change detected, but no extensions were affected") w)).
Proof.
  unfold exec. split.
  - destruct (extensionEvents appEvent) as [|x evs] eqn:Hevs.
    + rewrite (handleAppEvent_no_events _ _ Hevs). by destruct w.
    + assert (Hsome : extensionEvents appEvent <> []) by by rewrite Hevs.
      destruct (updateContexts appEvent (contexts w)) as [c|e] eqn:Hupd.
      * rewrite (handleAppEvent_processed _ _ _ Hsome Hupd). by destruct w.
      * rewrite (handleAppEvent_update_fails _ _ _ Hsome Hupd). by destruct w.
  - intros Hnone. rewrite (handleAppEvent_no_events _ _ Hnone). by destruct w.
Qed.

End BatchClaims.

Lemma handleAppEvent_quiet_batch_witness :
  trace (exec (@handleAppEvent sampleCollaborators (Returns (Some sampleQuietBatch)))
              sampleListening)
  = [OutputDebug "Change detected, but no extensions were affected"].
Proof.
  apply (@handleAppEvent_quiet_batch sampleCollaborators sampleQuietBatch sampleListening).
  reflexivity.
Defined.

Lemma handleAppEvent_replaces_app_witness :
  app (exec (@handleAppEvent sampleCollaborators (Returns (Some sampleQuietBatch)))
            sampleListening) = sampleApp2
  /\ exec (@handleAppEvent sampleCollaborators (Returns (Some sampleQuietBatch)))
          sampleListening
     = set_app sampleApp2
         (exec (outputDebug "Change detected, but no extensions were affected")
               sampleListening).
Proof.
  destruct (@handleAppEvent_replaces_app sampleCollaborators sampleQuietBatch
              sampleListening) as [Happ Hquiet].
  split; [exact Happ | exact (Hquiet eq_refl)].
Defined.



(** ** Listeners of the start event *)

Lemma listenersOf_insert event ls (w : Watcher) :
  listenersOf event (set_listeners (<[event := ls]> (listeners w)) w) = ls.
Proof. unfold listenersOf. destruct w; simpl. by rewrite lookup_insert_eq. Qed.

Lemma onStart_unfold l w :
  onStart l w =
    (Returns tt,
     let w' := set_listeners
                 (<["ready" := (listenersOf "ready" w ++ [l])%list]> (listeners w)) w in
     if ready w
     then set_trace (trace w ++ ((fun l' => Call "ready" l' None)
                                   <$> (listenersOf "ready" w ++ [l])%list)) w'
     else w').
Proof.
  unfold onStart, addListener, emit. run.
  replace (ready (set_listeners _ w)) with (ready w) by by destruct w.
  destruct (ready w) eqn:Hready; [|done].
  rewrite listenersOf_insert. by destruct w.
Qed.

Lemma onStart_ready_unfold l p a u c s ls d t :
  onStart l (mkWatcher p a u c s true ls d t) =
    (Returns tt,
     mkWatcher p a u c s true
       (<["ready" := (default [] (ls !! "ready") ++ [l])%list]> ls) d
       (t ++ ((fun l' => Call "ready" l' None)
                <$> (default [] (ls !! "ready") ++ [l])%list))).
Proof. by rewrite onStart_unfold. Qed.

Lemma deliveries_app event l t1 t2 :
  deliveries event l (t1 ++ t2) = deliveries event l t1 + deliveries event l t2.
Proof. unfold deliveries. by rewrite calls_app, filter_app, length_app. Qed.

Lemma deliveries_emit event arg l (ls : list Listener) :
  deliveries event l ((fun l' => Call event l' arg) <$> ls)
  = length (filter (eq l) ls).
Proof.
  unfold deliveries. rewrite calls_calls.
  induction ls as [|l' ls IH]; [done|].
  cbn [fmap list_fmap]. rewrite !filter_cons. cbn [fst].
  destruct (decide (l = l')) as [->|Hne].
  - rewrite decide_True by done. simpl. by f_equal.
  - rewrite decide_False by congruence. done.
Qed.

Lemma deliveries_emit_pos event arg l (ls : list Listener) :
  l ∈ ls -> 0 < deliveries event l ((fun l' => Call event l' arg) <$> ls).
Proof.
  intros Hl. rewrite deliveries_emit.
  assert (Hin : l ∈ filter (eq l) ls) by by apply list_elem_of_filter.
  destruct (filter (eq l) ls); [by apply elem_of_nil in Hin | simpl; lia].
Qed.

(** C7. A listener registered with [onStart] on a watcher that is already
    ready is called by that very registration. *)
Theorem onStart_after_ready_calls_listener (listener : Listener) (w : Watcher) :
  ready w = true ->
  exists t,
    eval (onStart listener) w = Returns tt
    /\ trace (exec (onStart listener) w) = (trace w ++ t)%list
    /\ Call "ready" listener None ∈ t
    /\ listener ∈ listenersOf "ready" (exec (onStart listener) w).
Proof.
  destruct w as [p a u c s r ls d t]. cbn [ready]. intros ->.
  unfold eval, exec. rewrite onStart_ready_unfold.
  eexists. split; [done|]. split; [done|]. split.
  - apply list_elem_of_fmap. exists listener. split; [done|].
    apply elem_of_app. right. apply list_elem_of_here.
  - unfold listenersOf. cbn [snd listeners]. rewrite lookup_insert_eq.
    apply elem_of_app. right. apply list_elem_of_here.
Qed.

Lemma onStart_after_ready_calls_listener_witness :
  exists t,
    eval (onStart 2) sampleReady = Returns tt
    /\ trace (exec (onStart 2) sampleReady) = (trace sampleReady ++ t)%list
    /\ Call "ready" 2 None ∈ t
    /\ 2 ∈ listenersOf "ready" (exec (onStart 2) sampleReady).
Proof. exact (onStart_after_ready_calls_listener 2 sampleReady eq_refl). Defined.

(** C9. On a watcher that is ready [onStart] emits the start event to all
    the listeners registered for it: every listener registered before is
    called again, and then the new one is called.  The watcher stays ready,
    so the same happens at every later registration. *)
Theorem onStart_after_ready_calls_all (listener : Listener) (w : Watcher) :
  ready w = true ->
  trace (exec (onStart listener) w)
  = (trace w ++ ((fun l => Call "ready" l None)
                   <$> (listenersOf "ready" w ++ [listener])%list))%list
  /\ (forall earlier, earlier ∈ listenersOf "ready" w ->
        deliveries "ready" earlier (trace w)
        < deliveries "ready" earlier (trace (exec (onStart listener) w)))
  /\ listenersOf "ready" (exec (onStart listener) w)
     = (listenersOf "ready" w ++ [listener])%list
  /\ ready (exec (onStart listener) w) = true.
Proof.
  destruct w as [p a u c s r ls d t]. cbn [ready]. intros ->.
  unfold exec. rewrite onStart_ready_unfold. unfold listenersOf.
  cbn [snd trace listeners ready]. split; [done|]. split; [|split; [|done]].
  - intros earlier Hearlier. rewrite deliveries_app.
    assert (0 < deliveries "ready" earlier
                  ((fun l => Call "ready" l None)
                     <$> (default [] (ls !! "ready") ++ [listener])%list)).
    { apply deliveries_emit_pos, elem_of_app. by left. }
    lia.
  - by rewrite lookup_insert_eq.
Qed.

Lemma onStart_after_ready_calls_all_witness :
  trace (exec (onStart 2) sampleReady)
  = (trace sampleReady ++ [Call "ready" 1 None; Call "ready" 2 None])%list
  /\ deliveries "ready" 1 (trace sampleReady)
     < deliveries "ready" 1 (trace (exec (onStart 2) sampleReady)).
Proof.
  destruct (onStart_after_ready_calls_all 2 sampleReady eq_refl)
    as (Htrace & Hagain & _).
  split; [exact Htrace|].
  apply Hagain. apply list_elem_of_here.
Defined.

(** ** Async methods run on *)

Lemma run_bind {A} (m : M A) (k : A -> M Async) w :
  run (m ≫= k) w = (a ← m; run (k a)) w.
Proof. unfold run, mbind, M_bind. by destruct (m w) as [[a|e] w1]. Qed.

Lemma run_awaiting {A} (m : M A) (k : A -> M Async) w :
  run (awaiting m k) w = (a ← m; run (k a)) w.
Proof.
  unfold run, awaiting, mbind, M_bind, mret, M_ret. cbn [complete].
  by destruct (m w) as [[a|e] w1].
Qed.

Lemma run_done w : run (mret Done) w = (Returns tt, w).
Proof. done. Qed.

Lemma complete_done w : complete Done w = (Returns tt, w).
Proof. done. Qed.













(** ** Starting the watcher *)

Section Start.
Context `{Collaborators}.

Lemma mkdir_unfold p w :
  mkdir p w =
    match mkdirOutcome p (disk w) with
    | Returns _ =>
        (Returns tt, set_disk ({[p]} ∪ disk w) (set_trace (trace w ++ [Mkdir p]) w))
    | Throws e => (Throws e, set_trace (trace w ++ [Mkdir p]) w)
    end.
Proof.
  unfold mkdir. rewrite bind_log, bind_this.
  destruct w as [b a u c s r l d t]. fields.
  by destruct (mkdirOutcome p d) as [[]|e].
Qed.

Lemma createContexts_unfold exts w :
  esbuildManager_createContexts exts w =
    match createContexts exts (contexts w) with
    | Returns c =>
        (Returns tt,
         set_contexts c (set_trace (trace w ++ [CreateContexts (handle <$> exts)]) w))
    | Throws e => (Throws e, set_trace (trace w ++ [CreateContexts (handle <$> exts)]) w)
    end.
Proof.
  unfold esbuildManager_createContexts. rewrite bind_log, bind_this.
  destruct w as [b a u c s r l d t]. fields.
  by destruct (createContexts exts c).
Qed.

Lemma startFileWatcher_unfold a w :
  startFileWatcher a w =
    (startFileWatcherOutcome a, set_trace (trace w ++ [StartFileWatcher]) w).
Proof.
  unfold startFileWatcher. rewrite bind_log. unfold await.
  by destruct (startFileWatcherOutcome a) as [[]|e].
Qed.

Lemma start_again w : started w = true -> start w = (Returns Done, w).
Proof. intros Hs. unfold start. rewrite bind_this. by rewrite Hs. Qed.

Lemma run_start_again w : started w = true -> run start w = (Returns tt, w).
Proof. intros Hs. unfold run. by rewrite (bind_eq _ _ _ _ _ (start_again w Hs)). Qed.

Lemma run_start_first w : started w = false -> run start w = firstStart w.
Proof.
  destruct w as [p a u c s r ls d t]. cbn [started]. intros ->.
  unfold start, firstStart, cleared, rooted, subscribing, readied, builtAll,
    clearedDisk, clearing, esbuildExtensions.
  rewrite run_bind, bind_this. fields.
  rewrite run_bind, bind_modify, run_awaiting. fields.
  erewrite bind_eq; [|reflexivity]. fields.
  set (d1 := if bool_decide (p ∈ d) then remove_tree p d else d).
  set (t1 := (t ++ (if bool_decide (p ∈ d) then [Rmdir p true] else []) ++ [Mkdir p])%list).
  match goal with |- run (_ ?k) _ = _ =>
    assert (Hclear : run ((if bool_decide (p ∈ d)
                           then awaiting (rmdir p true)
                           else fun rest => rest tt) k)
                       (mkWatcher p a u c true r ls d t)
                     = run (k tt)
                         (mkWatcher p a u c true r ls d1
                            (t ++ (if bool_decide (p ∈ d) then [Rmdir p true] else []))))
  end.
  { subst d1. destruct (bool_decide (p ∈ d)).
    - rewrite run_awaiting.
      erewrite bind_eq; [|apply rmdir_force_unfold]. by fields.
    - by rewrite app_nil_r. }
  rewrite Hclear. clear Hclear.
  rewrite run_awaiting.
  match goal with |- (mkdir ?p ≫= ?k) ?w0 = _ =>
    pose proof (mkdir_unfold p w0) as Hmk; lazy beta iota delta
      [set_app set_contexts set_started set_ready set_listeners set_disk set_trace
       buildOutputPath app appURL contexts started ready listeners disk trace] in Hmk
  end.
  rewrite <- app_assoc in Hmk. fold t1 in Hmk.
  destruct (mkdirOutcome p d1) as [[]|e].
  2: { by rewrite (bind_throws _ _ _ _ _ Hmk). }
  rewrite (bind_eq _ _ _ _ _ Hmk). clear Hmk.
  rewrite run_bind, bind_this, run_awaiting. fields.
  match goal with |- (esbuildManager_createContexts ?exts ≫= ?k) ?w0 = _ =>
    pose proof (createContexts_unfold exts w0) as Hcc; lazy beta iota delta
      [set_app set_contexts set_started set_ready set_listeners set_disk set_trace
       buildOutputPath app appURL contexts started ready listeners disk trace] in Hcc
  end.
  destruct (createContexts _ c) as [c'|e].
  2: { by rewrite (bind_throws _ _ _ _ _ Hcc). }
  rewrite (bind_eq _ _ _ _ _ Hcc). clear Hcc.
  rewrite run_bind, bind_this, run_awaiting. fields.
  erewrite bind_eq; [|apply buildExtensions_unfold]. fields.
  rewrite run_bind, bind_this, run_awaiting. fields.
  unfold mbind at 1, M_bind at 1. rewrite startFileWatcher_unfold.
  destruct (startFileWatcherOutcome a) as [[]|e]; fields; [|done].
  rewrite run_bind, bind_modify. fields.
  rewrite run_bind. unfold emit. rewrite bind_modify. fields.
  rewrite run_done. reflexivity.
Qed.


End Start.

Lemma setup_effects `{Collaborators} w exts :
  filter (fun e => isSetup e = true) (concat (effectsOf w <$> exts)) = [].
Proof.
  induction exts as [|ext exts IH]; [done|].
  cbn [fmap list_fmap concat]. rewrite filter_app, IH.
  unfold effectsOf. by destruct (contexts w !! handle ext).
Qed.


Lemma calls_startWork `{Collaborators} c w : calls (startWork c w) = [].
Proof.
  unfold startWork, clearing. rewrite !calls_app, calls_effects.
  by destruct (bool_decide (buildOutputPath w ∈ disk w)).
Qed.

Lemma setup_startWork `{Collaborators} c w :
  filter (fun e => isSetup e = true) (startWork c w) = setupOf w.
Proof.
  unfold startWork, clearing, setupOf. rewrite !filter_app, setup_effects.
  by destruct (bool_decide (buildOutputPath w ∈ disk w)).
Qed.

Lemma trace_cleared `{Collaborators} w :
  trace (cleared w) = (trace w ++ clearing w ++ [Mkdir (buildOutputPath w)])%list.
Proof. by destruct w. Qed.

Lemma trace_rooted `{Collaborators} w :
  trace (rooted w)
  = (trace w ++ clearing w
       ++ [Mkdir (buildOutputPath w);
           CreateContexts (handle <$> esbuildExtensions (app w))])%list.
Proof.
  unfold rooted. destruct w as [p a u c s r ls d t]. unfold cleared. fields.
  by rewrite <- !app_assoc.
Qed.

Lemma trace_subscribing `{Collaborators} c w :
  trace (subscribing c w) = (trace w ++ startWork c w)%list.
Proof.
  unfold subscribing, builtAll, startWork.
  pose proof (trace_rooted w) as Hrooted.
  assert (Happ : app (rooted w) = app w) by (by destruct w).
  set (w' := set_contexts c (rooted w)).
  assert (Htrace : trace w' = trace (rooted w)) by (by destruct (rooted w)).
  cbv zeta.
  transitivity ((trace w' ++ concat (effectsOf w' <$> realExtensions (app w)))
                  ++ [StartFileWatcher])%list.
  { generalize (concat (effectsOf w' <$> realExtensions (app w))).
    generalize (builtDisk w' (realExtensions (app w)) (disk w')).
    intros dd ee. by destruct w'. }
  rewrite Htrace, Hrooted. by rewrite <- !app_assoc.
Qed.

Lemma trace_readied `{Collaborators} c w :
  trace (readied c w)
  = (trace w ++ startWork c w
       ++ ((fun l => Call "ready" l None) <$> listenersOf "ready" w))%list.
Proof.
  unfold readied. rewrite app_assoc, <- trace_subscribing.
  generalize (subscribing c w). intros w'. by destruct w'.
Qed.

(** The fields of the watcher a first call of [start] leaves alone. *)
Lemma same_cleared `{Collaborators} w :
  set_trace [] (set_disk ∅ (cleared w)) = set_trace [] (set_disk ∅ (set_started true w)).
Proof. by destruct w. Qed.

Lemma same_rooted `{Collaborators} w :
  set_trace [] (set_disk ∅ (rooted w)) = set_trace [] (set_disk ∅ (set_started true w)).
Proof. by destruct w. Qed.

Lemma same_subscribing `{Collaborators} c w :
  set_trace [] (set_disk ∅ (subscribing c w))
  = set_trace [] (set_disk ∅ (set_contexts c (set_started true w))).
Proof.
  unfold subscribing, builtAll. cbv zeta.
  generalize (same_rooted w). generalize (rooted w). intros w' Hw'.
  generalize (concat (effectsOf (set_contexts c w') <$> realExtensions (app w))).
  generalize (builtDisk (set_contexts c w') (realExtensions (app w))
                (disk (set_contexts c w'))).
  intros dd ee. destruct w', w. fields. unfold set_trace, set_disk, set_started in Hw'.
  fields. by injection Hw' as -> -> -> -> -> -> ->.
Qed.

Lemma same_readied `{Collaborators} c w :
  set_trace [] (set_disk ∅ (readied c w))
  = set_trace [] (set_disk ∅ (set_ready true (set_contexts c (set_started true w)))).
Proof.
  unfold readied.
  generalize (same_subscribing c w). generalize (subscribing c w). intros w' Hw'.
  generalize (trace w' ++ ((fun l => Call "ready" l None) <$> listenersOf "ready" w))%list.
  intros tt'. destruct w', w. fields. unfold set_trace, set_disk, set_started, set_contexts in Hw'.
  fields. by injection Hw' as -> -> -> -> -> -> ->.
Qed.



Lemma same_listeners w1 w2 :
  set_trace [] (set_disk ∅ w1) = set_trace [] (set_disk ∅ w2) -> listeners w1 = listeners w2.
Proof. destruct w1, w2. unfold set_trace, set_disk. by intros [= ]. Qed.

Lemma same_app w1 w2 :
  set_trace [] (set_disk ∅ w1) = set_trace [] (set_disk ∅ w2) -> app w1 = app w2.
Proof. destruct w1, w2. unfold set_trace, set_disk. by intros [= ]. Qed.

Lemma same_contexts w1 w2 :
  set_trace [] (set_disk ∅ w1) = set_trace [] (set_disk ∅ w2) -> contexts w1 = contexts w2.
Proof. destruct w1, w2. unfold set_trace, set_disk. by intros [= ]. Qed.

Lemma prefix_setup_cleared w :
  filter (fun e => isSetup e = true) (clearing w ++ [Mkdir (buildOutputPath w)])%list
  = [Mkdir (buildOutputPath w)].
Proof. unfold clearing. by destruct (bool_decide (buildOutputPath w ∈ disk w)). Qed.

Lemma prefix_setup_rooted w :
  filter (fun e => isSetup e = true)
    (clearing w ++ [Mkdir (buildOutputPath w);
                    CreateContexts (handle <$> esbuildExtensions (app w))])%list
  = [Mkdir (buildOutputPath w); CreateContexts (handle <$> esbuildExtensions (app w))].
Proof. unfold clearing. by destruct (bool_decide (buildOutputPath w ∈ disk w)). Qed.

Lemma calls_clearing w : calls (clearing w) = [].
Proof. unfold clearing. by destruct (bool_decide (buildOutputPath w ∈ disk w)). Qed.




(** * Further properties *)

(** ** The handler of a batch, all of its paths *)

Section Handler.
Context `{Collaborators}.

(** The five ways a reconciliation is handled. *)
Lemma handleAppEvent_cases reconciled w :
  (exists e, reconciled = Throws e)
  \/ reconciled = Returns None
  \/ (exists appEvent, reconciled = Returns (Some appEvent)
        /\ extensionEvents appEvent = [])
  \/ (exists appEvent e, reconciled = Returns (Some appEvent)
        /\ extensionEvents appEvent <> []
        /\ updateContexts appEvent (contexts w) = Throws e)
  \/ (exists appEvent c, reconciled = Returns (Some appEvent)
        /\ extensionEvents appEvent <> []
        /\ updateContexts appEvent (contexts w) = Returns c).
Proof.
  destruct reconciled as [[appEvent|]|e]; [|by right; left|by left; exists e].
  right; right.
  destruct (extensionEvents appEvent) as [|x evs] eqn:Hevs.
  - left. by exists appEvent.
  - right.
    destruct (updateContexts appEvent (contexts w)) as [c|e] eqn:Hupd.
    + right. exists appEvent, c. by rewrite Hevs.
    + left. exists appEvent, e. by rewrite Hevs.
Qed.

Lemma setup_rmdirs (f : ExtensionInstance -> string) exts :
  filter (fun e => isSetup e = true) ((fun ext => Rmdir (f ext) true) <$> exts) = [].
Proof. by induction exts. Qed.

Lemma setup_calls event arg (ls : list Listener) :
  filter (fun e => isSetup e = true) ((fun l => Call event l arg) <$> ls) = [].
Proof. by induction ls. Qed.

Lemma setup_batchWork appEvent c w :
  filter (fun e => isSetup e = true) (batchWork appEvent c w) = [].
Proof.
  unfold batchWork. by rewrite !filter_app, setup_effects, setup_rmdirs.
Qed.

Lemma handleAppEvent_processed_work appEvent w c :
  extensionEvents appEvent <> [] ->
  updateContexts appEvent (contexts w) = Returns c ->
  handleAppEvent (Returns (Some appEvent)) w =
    (Returns tt,
     set_trace
       (trace w ++ batchWork appEvent c w
          ++ ((fun l => Call "all" l (Some appEvent)) <$> listenersOf "all" w))
       (set_disk (batchDisk appEvent c w) (updated appEvent c w))).
Proof.
  intros Hsome Hupd. rewrite (handleAppEvent_processed _ _ _ Hsome Hupd).
  unfold batchWork. by rewrite <- !app_assoc.
Qed.



(** X1. Whatever the reconciliation yields (a rejection, nothing, a batch
    without events, a batch whose update of the contexts fails, a batch that
    is processed), the handler resolves and never rejects; it leaves the
    output path, the URL, the two flags and the listeners of the watcher as
    they are, only adds to the log, and adds none of the steps of [start]. *)
Theorem handleAppEvent_always_resolves
    (reconciled : Outcome (option AppEvent)) (w : Watcher) :
  eval (handleAppEvent reconciled) w = Returns tt
  /\ buildOutputPath (exec (handleAppEvent reconciled) w) = buildOutputPath w
  /\ appURL (exec (handleAppEvent reconciled) w) = appURL w
  /\ started (exec (handleAppEvent reconciled) w) = started w
  /\ ready (exec (handleAppEvent reconciled) w) = ready w
  /\ listeners (exec (handleAppEvent reconciled) w) = listeners w
  /\ exists t,
       trace (exec (handleAppEvent reconciled) w) = (trace w ++ t)%list
       /\ filter (fun e => isSetup e = true) t = []
       /\ callsFor "ready" t = [].
Proof.
  unfold eval, exec.
  destruct (handleAppEvent_cases reconciled w)
    as [(e & ->)|[->|[(ev & -> & Hnone)|[(ev & e & -> & Hsome & Hupd)
       |(ev & c & -> & Hsome & Hupd)]]]].
  - rewrite handleAppEvent_rejected. destruct w. repeat split; try done.
    by eexists.
  - rewrite handleAppEvent_nothing. repeat split; try done.
    exists []. by rewrite app_nil_r.
  - rewrite (handleAppEvent_no_events _ _ Hnone). destruct w.
    repeat split; try done. by eexists.
  - rewrite (handleAppEvent_update_fails _ _ _ Hsome Hupd). destruct w.
    repeat split; try done. by eexists.
  - rewrite (handleAppEvent_processed_work _ _ _ Hsome Hupd).
    repeat split; try by destruct w.
    eexists. split; [by destruct w|]. split.
    + by rewrite filter_app, setup_batchWork, setup_calls.
    + unfold callsFor. rewrite calls_app, calls_batchWork, calls_calls.
      simpl. by induction (listenersOf "all" w).
Qed.

(** X2. Without a batch nothing is built, removed or notified and the app
    the watcher holds stays: a reconciliation that resolves to nothing
    leaves the watcher exactly as it is (the app is only replaced by a
    batch), and one that rejects adds the line of the error to the error
    stream and nothing else. *)
Theorem handleAppEvent_without_batch (e : JsError) (w : Watcher) :
  exec (handleAppEvent (Returns None)) w = w
  /\ trace (exec (handleAppEvent (Throws e)) w)
     = (trace w ++ [StderrWrite ("Error handling event: " ++ message e)])%list
  /\ app (exec (handleAppEvent (Throws e)) w) = app w
  /\ contexts (exec (handleAppEvent (Throws e)) w) = contexts w
  /\ disk (exec (handleAppEvent (Throws e)) w) = disk w.
Proof.
  unfold exec. rewrite handleAppEvent_nothing, handleAppEvent_rejected.
  by destruct w.
Qed.

(** X3. When the update of the esbuild contexts throws for a batch with
    events, the handler has already replaced the app by the app of the
    batch; it keeps the contexts and the disk, builds nothing, calls no
    listener and writes the message of the error to the error stream. *)
Theorem handleAppEvent_update_failure
    (appEvent : AppEvent) (w : Watcher) (e : JsError) :
  extensionEvents appEvent <> [] ->
  updateContexts appEvent (contexts w) = Throws e ->
  eval (handleAppEvent (Returns (Some appEvent))) w = Returns tt
  /\ trace (exec (handleAppEvent (Returns (Some appEvent))) w)
     = (trace w ++ [UpdateContexts appEvent;
                    StderrWrite ("Error handling event: " ++ message e)])%list
  /\ app (exec (handleAppEvent (Returns (Some appEvent))) w) = ev_app appEvent
  /\ contexts (exec (handleAppEvent (Returns (Some appEvent))) w) = contexts w
  /\ disk (exec (handleAppEvent (Returns (Some appEvent))) w) = disk w.
Proof.
  intros Hsome Hupd. unfold eval, exec.
  rewrite (handleAppEvent_update_fails _ _ _ Hsome Hupd). by destruct w.
Qed.



End Handler.

Lemma handleAppEvent_update_failure_witness :
  trace (exec (@handleAppEvent failingCollaborators (Returns (Some sampleBatch)))
              sampleListening)
  = [UpdateContexts sampleBatch;
     StderrWrite "Error handling event: esbuild context failed"]
  /\ app (exec (@handleAppEvent failingCollaborators (Returns (Some sampleBatch)))
               sampleListening) = sampleApp.
Proof.
  destruct (@handleAppEvent_update_failure failingCollaborators sampleBatch
              sampleListening (mkError "esbuild context failed"))
    as (_ & Htrace & Happ & _); [done|done|].
  split; [exact Htrace | exact Happ].
Defined.



(** ** The build dispatcher, beyond its results *)


Lemma bundles_app t1 t2 : bundles (t1 ++ t2) = (bundles t1 ++ bundles t2)%list.
Proof. apply omap_app. Qed.

Lemma bundles_effects `{Collaborators} w exts :
  bundles (concat (effectsOf w <$> exts))
  = (fun ext => (handle ext, optionsOf w, buildOutputPath w))
      <$> filter (fun ext => contexts w !! handle ext = None) exts.
Proof.
  induction exts as [|ext exts IH]; [done|].
  cbn [fmap list_fmap concat]. rewrite bundles_app, IH, filter_cons.
  unfold effectsOf.
  destruct (contexts w !! handle ext) as [c|] eqn:Hc.
  - by rewrite decide_False by done.
  - by rewrite decide_True by done.
Qed.



(** X8. Every call of [buildForBundle] that [buildExtensions] makes is for
    an extension of the list that has no esbuild context, and passes the
    app the watcher holds, no task UI, the environment "development", the
    URL of the watcher and the build output path of the watcher. *)
Theorem buildExtensions_bundle_options `{Collaborators}
    (extensions : list ExtensionInstance) (w : Watcher)
    (h : string) (options : ExtensionBuildOptions) (dir : string) :
  BuildForBundle h options dir ∈ trace (exec (buildExtensions extensions) w) ->
  BuildForBundle h options dir ∈ trace w
  \/ ((exists ext, ext ∈ extensions /\ handle ext = h)
      /\ contexts w !! h = None
      /\ opt_app options = app w
      /\ useTasks options = false
      /\ environment options = "development"
      /\ opt_appURL options = appURL w
      /\ dir = buildOutputPath w).
Proof.
  unfold exec. rewrite buildExtensions_unfold.
  destruct w as [p a u c s r l d t]. cbn [snd set_trace set_disk trace].
  intros [Hold|Hnew]%elem_of_app; [by left|right].
  apply elem_of_effects in Hnew as (ext & Hext & Hin).
  unfold effectsOf in Hin. cbn [contexts buildOutputPath] in Hin.
  apply list_elem_of_In in Hin. simpl in Hin.
  destruct Hin as [Hin|[Hin|[]]]; [discriminate|].
  destruct (c !! handle ext) as [ctx|] eqn:Hc; [discriminate|].
  injection Hin as <- <- <-. cbn. split; [by exists ext|done].
Qed.

Lemma buildExtensions_bundle_options_witness :
  (exists ext, ext ∈ [sampleX; sampleZ] /\ handle ext = "x")
  /\ contexts sampleLive !! "x" = None
  /\ useTasks (optionsOf sampleLive) = false.
Proof.
  destruct (@buildExtensions_bundle_options sampleCollaborators
              [sampleX; sampleZ] sampleLive
              "x" (optionsOf sampleLive) "/app/.shopify/bundle")
    as [Hold|(Hext & Hctx & _ & Htasks & _)].
  - vm_compute. apply list_elem_of_further, list_elem_of_here.
  - vm_compute in Hold. by apply elem_of_nil in Hold.
  - split; [exact Hext|]. split; [exact Hctx | exact Htasks].
Defined.

(** ** Deleting build output, beyond idempotence *)

Lemma string_append_assoc (a b c : string) : (a ++ b) ++ c = a ++ b ++ c.
Proof.
  induction a as [|x a IH]; [done|].
  change (String x ((a ++ b) ++ c) = String x (a ++ b ++ c)). by rewrite IH.
Qed.

Lemma inside_spec dir p :
  inside dir p = true <-> p = dir \/ exists rest, p = dir ++ "/" ++ rest.
Proof.
  unfold inside. rewrite orb_true_iff, bool_decide_eq_true.
  assert (Hprefix : forall a b, String.prefix a b = true <-> exists rest, b = a ++ rest).
  { induction a as [|x a IH]; intros b.
    - destruct b; simpl; split; eauto.
    - destruct b as [|y b]; simpl.
      + split; [done | by intros [rest ?]].
      + destruct (Ascii.ascii_dec x y) as [->|Hne].
        * rewrite IH. split; intros [rest Hrest]; exists rest.
          -- change (String y b = String y (a ++ rest)). by rewrite Hrest.
          -- change (String y b = String y (a ++ rest)) in Hrest. congruence.
        * split; [done|]. intros [rest Hrest].
          change (String y b = String x (a ++ rest)) in Hrest. congruence. }
  rewrite Hprefix. split; intros [?|[rest Hrest]]; eauto.
  - right. exists rest. by rewrite Hrest, string_append_assoc.
  - right. exists rest. by rewrite Hrest, string_append_assoc.
Qed.

(** X9. [deleteExtensionsBuildOutput] removes, with [force], the output
    directory of each extension given, in their order, and nothing else:
    a path is on disk afterwards exactly if it was before and is neither
    the output directory of one of the extensions nor below one.  The
    watcher itself is left as it is. *)
Theorem deleteExtensionsBuildOutput_removes_exactly
    (extensions : list ExtensionInstance) (w : Watcher) :
  (forall q,
     q ∈ disk (exec (deleteExtensionsBuildOutput extensions) w) <->
     q ∈ disk w
     /\ forall ext, ext ∈ extensions ->
          q <> joinPath [buildOutputPath w; getOutputFolderId ext]
          /\ forall rest,
               q <> joinPath [buildOutputPath w; getOutputFolderId ext] ++ "/" ++ rest)
  /\ trace (exec (deleteExtensionsBuildOutput extensions) w)
     = (trace w
          ++ ((fun ext => Rmdir (joinPath [buildOutputPath w; getOutputFolderId ext]) true)
                <$> extensions))%list
  /\ set_trace [] (set_disk ∅ (exec (deleteExtensionsBuildOutput extensions) w))
     = set_trace [] (set_disk ∅ w).
Proof.
  unfold exec. rewrite deleteExtensionsBuildOutput_unfold.
  split; [|by destruct w].
  intros q. destruct w as [p a u c s r l d t]. cbn -[remove_tree joinPath].
  rewrite elem_of_purged. unfold outputPathOf. cbn [buildOutputPath].
  split.
  - intros [Hq Hall]. split; [done|]. intros ext Hext.
    assert (Hout : inside (joinPath [p; getOutputFolderId ext]) q = false).
    { apply Hall, list_elem_of_fmap. by exists ext. }
    split.
    + intros ->. apply not_true_iff_false in Hout. apply Hout, inside_spec. by left.
    + intros rest ->. apply not_true_iff_false in Hout. apply Hout, inside_spec.
      right. by exists rest.
  - intros [Hq Hall]. split; [done|].
    intros p' (ext & -> & Hext)%list_elem_of_fmap.
    apply not_true_iff_false. intros [->|[rest ->]]%inside_spec.
    + by apply (Hall ext Hext).
    + by apply (proj2 (Hall ext Hext) rest).
Qed.

(** X10. The order in which the extensions are given does not matter for
    what is left on disk. *)
Theorem deleteExtensionsBuildOutput_order
    (l1 l2 : list ExtensionInstance) (w : Watcher) :
  l1 ≡ₚ l2 ->
  disk (exec (deleteExtensionsBuildOutput l1) w)
  = disk (exec (deleteExtensionsBuildOutput l2) w).
Proof.
  intros Hperm. unfold exec. rewrite !deleteExtensionsBuildOutput_unfold.
  destruct w as [p a u c s r l d t]. cbn -[remove_tree].
  apply set_eq. intros q. rewrite !elem_of_purged.
  split; intros [Hq Hall]; (split; [done|]); intros p' Hp'; apply Hall.
  - by rewrite Hperm.
  - by rewrite <- Hperm.
Qed.

Lemma deleteExtensionsBuildOutput_order_witness :
  disk (exec (deleteExtensionsBuildOutput [sampleZ; sampleX]) sampleWatcher)
  = disk (exec (deleteExtensionsBuildOutput [sampleX; sampleZ]) sampleWatcher).
Proof.
  apply deleteExtensionsBuildOutput_order. apply Permutation_swap.
Defined.

(** ** Registering listeners *)

Lemma onStart_not_ready_unfold l p a u c s ls d t :
  onStart l (mkWatcher p a u c s false ls d t) =
    (Returns tt,
     mkWatcher p a u c s false
       (<["ready" := (default [] (ls !! "ready") ++ [l])%list]> ls) d t).
Proof. by rewrite onStart_unfold. Qed.

(** X11. On a watcher that is not ready yet [onStart] only registers: the
    listener is added after the listeners of the start event already there,
    it is not called, the listeners of batches stay, and nothing else of
    the watcher changes. *)
Theorem onStart_before_ready_only_registers (listener : Listener) (w : Watcher) :
  ready w = false ->
  eval (onStart listener) w = Returns tt
  /\ trace (exec (onStart listener) w) = trace w
  /\ listenersOf "ready" (exec (onStart listener) w)
     = (listenersOf "ready" w ++ [listener])%list
  /\ listenersOf "all" (exec (onStart listener) w) = listenersOf "all" w
  /\ set_listeners ∅ (exec (onStart listener) w) = set_listeners ∅ w.
Proof.
  destruct w as [p a u c s r ls d t]. cbn [ready]. intros ->.
  unfold eval, exec. rewrite onStart_not_ready_unfold. unfold listenersOf.
  cbn [fst snd trace listeners]. rewrite lookup_insert_eq, lookup_insert_ne by done.
  done.
Qed.

Lemma onStart_before_ready_only_registers_witness :
  trace (exec (onStart 1) sampleWatcher) = []
  /\ listenersOf "ready" (exec (onStart 1) sampleWatcher) = [1].
Proof.
  destruct (onStart_before_ready_only_registers 1 sampleWatcher eq_refl)
    as (_ & Htrace & Hls & _).
  split; [exact Htrace | exact Hls].
Defined.

Lemma times_onEvent n l p a u c s r ls d t :
  times n (onEvent l) (mkWatcher p a u c s r ls d t) =
    (Returns tt,
     match n with
     | 0 => mkWatcher p a u c s r ls d t
     | S _ => mkWatcher p a u c s r
                (<["all" := (default [] (ls !! "all") ++ replicate n l)%list]> ls) d t
     end).
Proof.
  revert ls. induction n as [|n IH]; intros ls; [done|].
  cbn [times].
  rewrite (bind_eq (onEvent l) _ (mkWatcher p a u c s r ls d t) tt
             (mkWatcher p a u c s r (<["all" := (default [] (ls !! "all") ++ [l])%list]> ls) d t)
             eq_refl).
  rewrite IH. destruct n as [|n]; [done|].
  rewrite lookup_insert_eq, insert_insert_eq. simpl.
  by rewrite <- app_assoc.
Qed.

Section Registrations.
Context `{Collaborators}.

(** X12. Registrations with [onEvent] are all kept: after [n] registrations
    of a listener, nothing has been called yet, and a batch that is
    processed calls that listener [n] times more than it did before the
    registrations, once for each. *)
Theorem onEvent_each_registration_notified
    (n : nat) (listener : Listener) (appEvent : AppEvent) (w : Watcher)
    (c : gmap string BuildContext) :
  extensionEvents appEvent <> [] ->
  updateContexts appEvent (contexts w) = Returns c ->
  trace (exec (times n (onEvent listener)) w) = trace w
  /\ listenersOf "all" (exec (times n (onEvent listener)) w)
     = (listenersOf "all" w ++ replicate n listener)%list
  /\ deliveries "all" listener
       (trace (exec (handleAppEvent (Returns (Some appEvent)))
                    (exec (times n (onEvent listener)) w)))
     = deliveries "all" listener
         (trace (exec (handleAppEvent (Returns (Some appEvent))) w)) + n.
Proof.
  intros Hsome Hupd.
  assert (Hls : listenersOf "all" (exec (times n (onEvent listener)) w)
                = (listenersOf "all" w ++ replicate n listener)%list).
  { destruct w as [p a u cs s r ls d t]. unfold exec. rewrite times_onEvent.
    unfold listenersOf. destruct n; cbn [snd listeners].
    - by rewrite app_nil_r.
    - by rewrite lookup_insert_eq. }
  assert (Hctx : contexts (exec (times n (onEvent listener)) w) = contexts w).
  { destruct w. unfold exec. rewrite times_onEvent. by destruct n. }
  assert (Htr : trace (exec (times n (onEvent listener)) w) = trace w).
  { destruct w. unfold exec. rewrite times_onEvent. by destruct n. }
  split; [done|]. split; [done|].
  unfold exec at 1 3.
  rewrite (handleAppEvent_processed_work _ _ _ Hsome Hupd).
  rewrite (handleAppEvent_processed_work appEvent _ c Hsome)
    by by rewrite Hctx.
  cbn [snd]. rewrite Hls.
  replace (trace (set_trace _ _)) with
    (trace w ++ batchWork appEvent c (exec (times n (onEvent listener)) w)
       ++ ((fun l => Call "all" l (Some appEvent))
             <$> (listenersOf "all" w ++ replicate n listener)%list))%list
    by (rewrite <- Htr; by destruct (exec (times n (onEvent listener)) w)).
  replace (trace (set_trace _ _)) with
    (trace w ++ batchWork appEvent c w
       ++ ((fun l => Call "all" l (Some appEvent)) <$> listenersOf "all" w))%list
    by by destruct w.
  rewrite !deliveries_app, !deliveries_emit.
  unfold deliveries at 2 4. rewrite !calls_batchWork. cbn [filter length list_filter].
  rewrite filter_app, length_app.
  assert (Hrep : length (filter (eq listener) (replicate n listener)) = n).
  { clear. induction n as [|n IH]; [done|].
    cbn [replicate]. rewrite filter_cons_True by done. simpl. by rewrite IH. }
  rewrite Hrep. lia.
Qed.
End Registrations.

Lemma onEvent_each_registration_notified_witness :
  deliveries "all" 7
    (trace (exec (@handleAppEvent sampleCollaborators (Returns (Some sampleBatch)))
                 (exec (times 2 (onEvent 7)) sampleWatcher)))
  = deliveries "all" 7
      (trace (exec (@handleAppEvent sampleCollaborators (Returns (Some sampleBatch)))
                   sampleWatcher)) + 2.
Proof.
  apply (@onEvent_each_registration_notified sampleCollaborators 2 7 sampleBatch
           sampleWatcher ∅); done.
Defined.

(** ** Whole sessions *)

Section SessionSteps.
Context `{Collaborators}.

(** One operation in closed form: the state it leaves is the state before
    with a new app, new contexts, flags, listeners, disk and a longer log,
    and it resolves unless it is a first call of [start]. *)
Lemma perform_shape op w :
  exists o a c s r ls d t,
    perform op w
    = (o, mkWatcher (buildOutputPath w) a (appURL w) c s r ls d (trace w ++ t))
    /\ (o = Returns tt \/ (op = CallStart /\ started w = false))
    /\ (started w = true -> s = true)
    /\ (ready w = true -> r = true)
    /\ ((ready w = true -> started w = true) -> r = true -> s = true)
    /\ (forall event, listenersOf event w `prefix_of` default [] (ls !! event))
    /\ s = match op with CallStart => true | _ => started w end
    /\ filter (fun e => isSetup e = true) t
       `prefix_of` (if started w then [] else
                      match op with CallStart => setupOf w | _ => [] end)
    /\ (r = true ->
        ready w = true
        \/ (started w = false /\ filter (fun e => isSetup e = true) t = setupOf w))
    /\ Forall (fun call =>
                 (call.1.1 = "ready" /\ call.2 = None
                  /\ call.1.2 ∈ default [] (ls !! "ready") /\ r = true)
                 \/ (call.1.1 = "all" /\ is_Some call.2
                     /\ call.1.2 ∈ default [] (ls !! "all")))
              (calls t).
Proof.
  destruct op as [|l|l|events]; cbn [perform].
  - (* start *)
    destruct (started w) eqn:Hs.
    + rewrite (run_start_again w Hs). destruct w as [p a u c s r ls d t].
      cbn [started] in Hs. subst s.
      exists (Returns tt), a, c, true, r, ls, d, []. rewrite app_nil_r.
      repeat split; try done; by left.
    + rewrite (run_start_first w Hs). unfold firstStart.
      destruct (mkdirOutcome (buildOutputPath w) (clearedDisk w)) as [[]|e] eqn:Hmk;
        [destruct (createContexts (esbuildExtensions (app w)) (contexts w))
           as [c'|e] eqn:Hcc;
         [destruct (startFileWatcherOutcome (app w)) as [[]|e] eqn:Hfw|]|].
      * (* it returns *)
        pose proof (trace_readied c' w) as Htrace.
        pose proof (same_readied c' w) as Hsame.
        pose proof (setup_startWork c' w) as Hsetup.
        pose proof (calls_startWork c' w) as Hcalls.
        destruct (readied c' w) as [p1 a1 u1 c1 s1 r1 ls1 d1 t1].
        destruct w as [p a u c s r ls d t]. cbn [started] in Hs. subst s.
        unfold set_trace, set_disk, set_ready, set_contexts, set_started in Hsame.
        cbn [trace buildOutputPath app appURL contexts started ready listeners disk]
          in Hsame, Htrace.
        injection Hsame as -> -> -> -> -> -> ->. subst t1.
        do 8 eexists. split; [reflexivity|]. unfold listenersOf in *.
        cbn [started ready listeners buildOutputPath app] in *.
        split; [by left|]. split; [done|]. split; [done|]. split; [done|].
        split; [done|]. split; [done|].
        rewrite filter_app, Hsetup, setup_calls, app_nil_r.
        split; [done|]. split; [by right|].
        rewrite calls_app, Hcalls, calls_calls. cbn [app].
        apply Forall_fmap, Forall_forall. intros l Hl. by left.
      * (* the subscription throws *)
        pose proof (trace_subscribing c' w) as Htrace.
        pose proof (same_subscribing c' w) as Hsame.
        pose proof (setup_startWork c' w) as Hsetup.
        pose proof (calls_startWork c' w) as Hcalls.
        destruct (subscribing c' w) as [p1 a1 u1 c1 s1 r1 ls1 d1 t1].
        destruct w as [p a u c s r ls d t]. cbn [started] in Hs. subst s.
        unfold set_trace, set_disk, set_ready, set_contexts, set_started in Hsame.
        cbn [trace buildOutputPath app appURL contexts started ready listeners disk]
          in Hsame, Htrace.
        injection Hsame as -> -> -> -> -> -> ->. subst t1.
        do 8 eexists. split; [reflexivity|]. unfold listenersOf in *.
        cbn [started ready listeners buildOutputPath app] in *.
        split; [by right|]. split; [done|]. split; [done|]. split; [done|].
        split; [done|]. split; [done|].
        rewrite Hsetup, Hcalls.
        split; [done|]. split; [by right|]. constructor.
      * (* the creation of the contexts throws *)
        pose proof (trace_rooted w) as Htrace.
        pose proof (same_rooted w) as Hsame.
        pose proof (prefix_setup_rooted w) as Hsetup.
        pose proof (calls_clearing w) as Hcalls.
        destruct (rooted w) as [p1 a1 u1 c1 s1 r1 ls1 d1 t1].
        destruct w as [p a u c s r ls d t]. cbn [started] in Hs. subst s.
        unfold set_trace, set_disk, set_ready, set_contexts, set_started in Hsame.
        cbn [trace buildOutputPath app appURL contexts started ready listeners disk]
          in Hsame, Htrace.
        injection Hsame as -> -> -> -> -> -> ->. subst t1.
        do 8 eexists. split; [reflexivity|]. unfold listenersOf in *.
        cbn [started ready listeners buildOutputPath app] in *.
        split; [by right|]. split; [done|]. split; [done|]. split; [done|].
        split; [done|]. split; [done|].
        rewrite Hsetup, calls_app, Hcalls.
        split; [by eexists|]. split; [by left|]. constructor.
      * (* the creation of the directory throws *)
        pose proof (trace_cleared w) as Htrace.
        pose proof (same_cleared w) as Hsame.
        pose proof (prefix_setup_cleared w) as Hsetup.
        pose proof (calls_clearing w) as Hcalls.
        destruct (cleared w) as [p1 a1 u1 c1 s1 r1 ls1 d1 t1].
        destruct w as [p a u c s r ls d t]. cbn [started] in Hs. subst s.
        unfold set_trace, set_disk, set_ready, set_contexts, set_started in Hsame.
        cbn [trace buildOutputPath app appURL contexts started ready listeners disk]
          in Hsame, Htrace.
        injection Hsame as -> -> -> -> -> -> ->. subst t1.
        do 8 eexists. split; [reflexivity|]. unfold listenersOf in *.
        cbn [started ready listeners buildOutputPath app] in *.
        split; [by right|]. split; [done|]. split; [done|]. split; [done|].
        split; [done|]. split; [done|].
        rewrite Hsetup, calls_app, Hcalls.
        split; [by eexists|]. split; [by left|]. constructor.
  - (* onStart *)
    destruct w as [p a u c s r ls d t]. destruct r.
    + rewrite onStart_ready_unfold. do 8 eexists. split; [reflexivity|].
      unfold listenersOf. cbn [started ready listeners].
      split; [by left|].
      split; [done|]. split; [done|]. split; [by intros Hs _; apply Hs|].
      split.
      { intros event. destruct (decide (event = "ready")) as [->|Hne].
        - rewrite lookup_insert_eq. by apply prefix_app_r.
        - by rewrite lookup_insert_ne. }
      split; [done|]. rewrite setup_calls.
      split; [apply prefix_nil|]. split; [by left|].
      rewrite calls_calls, lookup_insert_eq.
      apply Forall_fmap, Forall_forall. intros l' Hl'. by left.
    + rewrite onStart_not_ready_unfold.
      exists (Returns tt), a, c, s, false,
        (<["ready" := (default [] (ls !! "ready") ++ [l])%list]> ls), d, [].
      rewrite app_nil_r. split; [done|]. unfold listenersOf. cbn [started ready listeners].
      split; [by left|].
      split; [done|]. split; [done|]. split; [done|].
      split.
      { intros event. destruct (decide (event = "ready")) as [->|Hne].
        - rewrite lookup_insert_eq. by apply prefix_app_r.
        - by rewrite lookup_insert_ne. }
      split; [done|]. split; [apply prefix_nil|]. split; [done|]. constructor.
  - (* onEvent *)
    destruct w as [p a u c s r ls d t].
    exists (Returns tt), a, c, s, r,
      (<["all" := (default [] (ls !! "all") ++ [l])%list]> ls), d, [].
    rewrite app_nil_r. split; [done|]. unfold listenersOf. cbn [started ready listeners].
    split; [by left|].
    split; [done|]. split; [done|]. split; [by intros Hs; apply Hs|].
    split.
    { intros event. destruct (decide (event = "all")) as [->|Hne].
      - rewrite lookup_insert_eq. by apply prefix_app_r.
      - by rewrite lookup_insert_ne. }
    split; [done|]. split; [apply prefix_nil|]. split; [by left|]. constructor.
  - (* the callback of the file watcher *)
    unfold onWatcherEvents.
    rewrite (bind_eq this _ w w w eq_refl).
    destruct (handleAppEvent_cases (handleWatcherEvents events (app w)) w)
      as [(e & ->)|[->|[(ev & -> & Hnone)|[(ev & e & -> & Hsome & Hupd)
         |(ev & c & -> & Hsome & Hupd)]]]].
    + rewrite handleAppEvent_rejected. destruct w as [p a u c s r ls d t].
      do 8 eexists. split; [reflexivity|]. unfold listenersOf.
      cbn [started ready listeners].
      split; [by left|]. split; [done|]. split; [done|]. split; [tauto|].
      split; [done|]. split; [done|]. split; [apply prefix_nil|].
      split; [by left|]. constructor.
    + rewrite handleAppEvent_nothing. destruct w as [p a u c s r ls d t].
      exists (Returns tt), a, c, s, r, ls, d, []. rewrite app_nil_r. unfold listenersOf.
      cbn [started ready listeners].
      split; [done|].
      split; [by left|]. split; [done|]. split; [done|]. split; [tauto|].
      split; [done|]. split; [done|]. split; [apply prefix_nil|].
      split; [by left|]. constructor.
    + rewrite (handleAppEvent_no_events _ _ Hnone). destruct w as [p a u c s r ls d t].
      do 8 eexists. split; [reflexivity|]. unfold listenersOf.
      cbn [started ready listeners].
      split; [by left|]. split; [done|]. split; [done|]. split; [tauto|].
      split; [done|]. split; [done|]. split; [apply prefix_nil|].
      split; [by left|]. constructor.
    + rewrite (handleAppEvent_update_fails _ _ _ Hsome Hupd).
      destruct w as [p a u c s r ls d t].
      do 8 eexists. split; [reflexivity|]. unfold listenersOf.
      cbn [started ready listeners].
      split; [by left|]. split; [done|]. split; [done|]. split; [tauto|].
      split; [done|]. split; [done|]. split; [apply prefix_nil|].
      split; [by left|]. constructor.
    + rewrite (handleAppEvent_processed_work _ _ _ Hsome Hupd).
      generalize (setup_batchWork ev c w). generalize (calls_batchWork ev c w).
      generalize (batchWork ev c w). generalize (batchDisk ev c w).
      intros dd work Hcalls Hsetup.
      destruct w as [p a u cs s r ls d t].
      do 8 eexists. split; [reflexivity|]. unfold listenersOf.
      cbn [started ready listeners]. split; [by left|]. split; [done|]. split; [done|].
      split; [tauto|]. split; [done|]. split; [done|].
      rewrite filter_app, Hsetup, setup_calls.
      split; [apply prefix_nil|]. split; [by left|].
      rewrite calls_app, Hcalls, calls_calls. cbn [app].
      apply Forall_fmap, Forall_forall. intros l Hl. right.
      split; [done|]. split; [by eexists | done].
Qed.
End SessionSteps.

Section Sessions.
Context `{Collaborators}.

Lemma session_cons op ops w :
  session (op :: ops) w = session ops (exec (perform op) w).
Proof.
  unfold session. cbn [fmap list_fmap sequence].
  unfold mbind at 1, M_bind at 1, try_catch, exec.
  by destruct (perform op w) as [[[]|e] w'].
Qed.

Lemma session_resolves ops w : session ops w = (Returns tt, exec (session ops) w).
Proof.
  revert w. induction ops as [|op ops IH]; intros w; [done|].
  unfold exec. rewrite !session_cons. apply IH.
Qed.

(** What every operation keeps, every session keeps. *)
Lemma session_keeps (keeps : Watcher -> Watcher -> Prop) ops :
  (forall w, keeps w w) ->
  (forall op w0 w, keeps w0 w -> keeps w0 (exec (perform op) w)) ->
  forall w, keeps w (exec (session ops) w).
Proof.
  intros Hrefl Hstep w.
  enough (Hgen : forall w1, keeps w w1 -> keeps w (exec (session ops) w1)) by by apply Hgen.
  induction ops as [|op ops IH]; intros w1 Hw1; [done|].
  unfold exec. rewrite session_cons. apply IH. by apply Hstep.
Qed.

(** X13. Of the operations of a session only a call of [start] on a watcher
    that is not started can reject; registrations, later calls of [start]
    and the callback of the file watcher always resolve.  And a session
    only moves forward, also when a call of [start] has rejected: the build
    output path and the URL stay, a watcher that is started stays started,
    a watcher that is ready stays ready, listeners are added after those
    there and never removed, and the log only grows. *)
Theorem session_only_moves_forward (ops : list Op) (w : Watcher) :
  (forall op w', op <> CallStart \/ started w' = true ->
                 eval (perform op) w' = Returns tt)
  /\ buildOutputPath (exec (session ops) w) = buildOutputPath w
  /\ appURL (exec (session ops) w) = appURL w
  /\ (started w = true -> started (exec (session ops) w) = true)
  /\ (ready w = true -> ready (exec (session ops) w) = true)
  /\ (forall event,
        listenersOf event w `prefix_of` listenersOf event (exec (session ops) w))
  /\ trace w `prefix_of` trace (exec (session ops) w).
Proof.
  split.
  { intros op w' Hcase.
    destruct (perform_shape op w')
      as (o & a & c & s & r & ls & d & t & Hop & [->|[Hstart Hs]] & _).
    - unfold eval. by rewrite Hop.
    - destruct Hcase as [Hne|Hs']; [done | congruence]. }
  apply (session_keeps (fun w0 w1 =>
    buildOutputPath w1 = buildOutputPath w0
    /\ appURL w1 = appURL w0
    /\ (started w0 = true -> started w1 = true)
    /\ (ready w0 = true -> ready w1 = true)
    /\ (forall event, listenersOf event w0 `prefix_of` listenersOf event w1)
    /\ trace w0 `prefix_of` trace w1)).
  - intros w0. repeat split; done.
  - intros op w0 w1 (Hp & Hu & Hs & Hr & Hls & Ht).
    destruct (perform_shape op w1)
      as (o & a & c & s & r & ls & d & t & Hop & _ & Hs' & Hr' & _ & Hls' & _).
    unfold exec. rewrite Hop. unfold listenersOf in *. cbn [snd buildOutputPath appURL
      started ready listeners trace].
    split; [done|]. split; [done|]. split; [auto|]. split; [auto|]. split.
    + intros event. etrans; [apply Hls | apply Hls'].
    + etrans; [apply Ht | by apply prefix_app_r].
Qed.

(** X14. A watcher is never ready without being started: if that holds
    before a session, as it does of a new watcher, it holds after it. *)
Theorem session_ready_only_if_started (ops : list Op) (w : Watcher) :
  (ready w = true -> started w = true) ->
  ready (exec (session ops) w) = true -> started (exec (session ops) w) = true.
Proof.
  intros Hw.
  apply (session_keeps (fun w0 w1 =>
    (ready w0 = true -> started w0 = true) ->
    ready w1 = true -> started w1 = true)); [done| |done].
  intros op w0 w1 Hkeep Hw0.
  destruct (perform_shape op w1)
    as (o & a & c & s & r & ls & d & t & Hop & _ & _ & _ & Hrs & _).
  unfold exec. rewrite Hop. cbn [snd started ready]. auto.
Qed.


Lemma legitimate_mono w w' call :
  (ready w = true -> ready w' = true) ->
  (forall event, listenersOf event w `prefix_of` listenersOf event w') ->
  legitimate w call -> legitimate w' call.
Proof.
  intros Hr Hls [(Hev & Harg & Hl & Hready)|(Hev & Harg & Hl)]; [left|right].
  - repeat split; [done|done| |by auto].
    destruct (Hls "ready") as [more ->]. apply elem_of_app. by left.
  - repeat split; [done|done|].
    destruct (Hls "all") as [more ->]. apply elem_of_app. by left.
Qed.

(** X16. Only registered listeners are called, each for the event it
    registered for: between the operations of a session every call in the
    log is either the start event, without argument, to a listener
    registered with [onStart] on a watcher that is ready by then, or a
    batch to a listener registered with [onEvent].  So the log holds no
    start event as long as an operation leaves the watcher not ready, a
    listener of batches never gets the start event and a listener of the
    start event never gets a batch. *)
Theorem session_calls_legitimate (ops : list Op) (w : Watcher) :
  Forall (legitimate w) (calls (trace w)) ->
  Forall (legitimate (exec (session ops) w)) (calls (trace (exec (session ops) w))).
Proof.
  apply (session_keeps (fun w0 w1 =>
    Forall (legitimate w0) (calls (trace w0)) ->
    Forall (legitimate w1) (calls (trace w1)))); [done|].
  intros op w0 w1 Hkeep Hw0.
  destruct (perform_shape op w1)
    as (o & a & c & s & r & ls & d & t & Hop & _ & _ & Hr & _ & Hls & _ & _ & _ & Hcalls).
  unfold exec. rewrite Hop. cbn [snd trace]. rewrite calls_app.
  apply Forall_app. split.
  - eapply Forall_impl; [by apply Hkeep|].
    intros call. by apply legitimate_mono.
  - eapply Forall_impl; [exact Hcalls|].
    intros call Hcall. exact Hcall.
Qed.
End Sessions.

Lemma session_only_moves_forward_witness :
  eval (@perform sampleCollaborators CallStart) sampleReady = Returns tt
  /\ started (exec (session sampleOps) sampleReady) = true
  /\ ready (exec (session sampleOps) sampleReady) = true.
Proof.
  destruct (@session_only_moves_forward sampleCollaborators sampleOps sampleReady)
    as (Hresolves & _ & _ & Hstarted & Hready & _).
  split; [apply Hresolves; by right|].
  split; [exact (Hstarted eq_refl) | exact (Hready eq_refl)].
Defined.

Lemma session_ready_only_if_started_witness :
  ready (exec (session sampleOps) sampleWatcher) = true /\
  started (exec (session sampleOps) sampleWatcher) = true.
Proof.
  assert (Hready : ready (exec (session sampleOps) sampleWatcher) = true)
    by reflexivity.
  split; [exact Hready|].
  apply (@session_ready_only_if_started sampleCollaborators sampleOps sampleWatcher);
    [discriminate | exact Hready].
Defined.


Lemma session_calls_legitimate_witness :
  Forall (legitimate (exec (session sampleOps) sampleWatcher))
         (calls (trace (exec (session sampleOps) sampleWatcher))).
Proof.
  apply (@session_calls_legitimate sampleCollaborators sampleOps sampleWatcher).
  constructor.
Defined.

(** ** What [start] leaves behind *)

Lemma inside_refl dir : inside dir dir = true.
Proof. apply inside_spec. by left. Qed.

Lemma writesOf_fields `{Collaborators} w1 w2 ext :
  contexts w1 = contexts w2 -> app w1 = app w2 -> appURL w1 = appURL w2 ->
  buildOutputPath w1 = buildOutputPath w2 ->
  writesOf w1 ext = writesOf w2 ext.
Proof. intros Hc Ha Hu Hp. unfold writesOf, optionsOf. by rewrite Hc, Ha, Hu, Hp. Qed.

Lemma builtDisk_fields `{Collaborators} w1 w2 exts d :
  contexts w1 = contexts w2 -> app w1 = app w2 -> appURL w1 = appURL w2 ->
  buildOutputPath w1 = buildOutputPath w2 ->
  builtDisk w1 exts d = builtDisk w2 exts d.
Proof.
  intros Hc Ha Hu Hp. unfold builtDisk. revert d.
  induction exts as [|x exts IH]; intros d; [done|].
  simpl. by rewrite (writesOf_fields w1 w2 x Hc Ha Hu Hp), IH.
Qed.

Lemma disk_cleared `{Collaborators} w : disk (cleared w) = clearedDisk w.
Proof. by destruct w. Qed.

Lemma disk_rooted `{Collaborators} w :
  disk (rooted w) = {[buildOutputPath w]} ∪ clearedDisk w.
Proof. by destruct w. Qed.

Lemma disk_readied `{Collaborators} c w :
  disk (readied c w)
  = builtDisk (set_contexts c (rooted w)) (realExtensions (app w))
      ({[buildOutputPath w]} ∪ clearedDisk w).
Proof.
  unfold readied, subscribing, builtAll. cbv zeta.
  rewrite <- (disk_rooted w).
  replace (disk (rooted w)) with (disk (set_contexts c (rooted w)))
    by (by destruct (rooted w)).
  generalize (set_contexts c (rooted w)). intros w'.
  generalize (builtDisk w' (realExtensions (app w)) (disk w')). intros dd.
  generalize (concat (effectsOf w' <$> realExtensions (app w))). intros ee.
  by destruct w'.
Qed.

Lemma fields_readied `{Collaborators} c w :
  contexts (readied c w) = c /\ app (readied c w) = app w
  /\ appURL (readied c w) = appURL w /\ buildOutputPath (readied c w) = buildOutputPath w.
Proof.
  pose proof (same_readied c w) as Hsame.
  destruct (readied c w), w.
  unfold set_trace, set_disk, set_ready, set_contexts, set_started in Hsame.
  cbn [trace buildOutputPath app appURL contexts started ready listeners disk] in Hsame.
  by injection Hsame as -> -> -> -> -> -> ->.
Qed.

Lemma fields_rooted `{Collaborators} c w :
  contexts (set_contexts c (rooted w)) = c /\ app (set_contexts c (rooted w)) = app w
  /\ appURL (set_contexts c (rooted w)) = appURL w
  /\ buildOutputPath (set_contexts c (rooted w)) = buildOutputPath w.
Proof. by destruct w. Qed.

Lemma elem_of_clearedDisk w q :
  q ∈ {[buildOutputPath w]} ∪ clearedDisk w <->
  q = buildOutputPath w
  \/ (q ∈ disk w
      /\ (buildOutputPath w ∈ disk w -> inside (buildOutputPath w) q = false)).
Proof.
  unfold clearedDisk. rewrite elem_of_union, elem_of_singleton.
  destruct (bool_decide (buildOutputPath w ∈ disk w)) eqn:Hp.
  - apply bool_decide_eq_true in Hp. rewrite elem_of_remove_tree. tauto.
  - apply bool_decide_eq_false in Hp. tauto.
Qed.

Lemma root_not_cleared w : buildOutputPath w ∉ clearedDisk w.
Proof.
  unfold clearedDisk.
  destruct (bool_decide (buildOutputPath w ∈ disk w)) eqn:Hp.
  - rewrite elem_of_remove_tree, inside_refl. by intros [? _].
  - by apply bool_decide_eq_false in Hp.
Qed.

Lemma outside_clearedDisk w q :
  inside (buildOutputPath w) q = false -> q ∈ clearedDisk w <-> q ∈ disk w.
Proof.
  intros Hout. unfold clearedDisk.
  destruct (bool_decide (buildOutputPath w ∈ disk w)); [|done].
  rewrite elem_of_remove_tree. tauto.
Qed.

Lemma removed_clearing w :
  removed (clearing w)
  = if bool_decide (buildOutputPath w ∈ disk w) then [buildOutputPath w] else [].
Proof. unfold clearing. by destruct (bool_decide (buildOutputPath w ∈ disk w)). Qed.

Lemma removed_startWork `{Collaborators} c w :
  removed (startWork c w)
  = if bool_decide (buildOutputPath w ∈ disk w) then [buildOutputPath w] else [].
Proof.
  unfold startWork. rewrite !removed_app, removed_effects, removed_clearing.
  by destruct (bool_decide (buildOutputPath w ∈ disk w)).
Qed.

(** No call of [start] removes without [force]. *)
Lemma forced_startWork `{Collaborators} c w (ls : list Listener) p e :
  e ∈ (startWork c w ++ ((fun l => Call "ready" l None) <$> ls))%list ->
  e <> Rmdir p false.
Proof.
  unfold startWork, clearing. rewrite !elem_of_app.
  intros [[Hclean|[Hsetup|[Hbuilds|Hwatch]]]|Hcalls].
  - destruct (bool_decide (buildOutputPath w ∈ disk w)).
    + apply list_elem_of_singleton in Hclean. by subst.
    + by apply elem_of_nil in Hclean.
  - apply elem_of_cons in Hsetup as [->|Hsetup]; [done|].
    apply list_elem_of_singleton in Hsetup. by subst.
  - apply elem_of_effects in Hbuilds as (ext & _ & Hext).
    unfold effectsOf in Hext. apply list_elem_of_In in Hext. simpl in Hext.
    destruct Hext as [<-|[<-|[]]]; [done|].
    by destruct (_ !! handle ext).
  - apply list_elem_of_singleton in Hwatch. by subst.
  - apply list_elem_of_fmap in Hcalls as (l & -> & _). done.
Qed.

Lemma elem_of_started_build `{Collaborators} e w' exts (ls : list Listener) :
  builtHandle e <> None ->
  e ∈ (concat (effectsOf w' <$> exts) ++ [StartFileWatcher]
       ++ ((fun l => Call "ready" l None) <$> ls))%list <->
  e ∈ concat (effectsOf w' <$> exts).
Proof.
  intros Hbuild. rewrite !elem_of_app. split.
  - intros [Hbuilds|[Hwatch|Hcalls]]; [done| |].
    + apply list_elem_of_singleton in Hwatch. by subst.
    + apply list_elem_of_fmap in Hcalls as (l & -> & _). done.
  - intros Hbuilds. by left.
Qed.

(** X17. Whatever its outcome, a first call of [start] removes the build
    output path at most once, with [force], and exactly if the path was
    there.  When the call returns, the initial builds have written onto a
    disk on which the path is there, on which nothing is below the path if
    the path was there before, and on which nothing outside of the path has
    changed.  When the creation of the directory is refused, the call
    rejects with the error of the file system and leaves the path missing
    and all outside of it as it was. *)
Theorem start_prepares_output_root `{Collaborators} (w : Watcher) :
  started w = false ->
  (exists t,
     trace (exec (run start) w) = (trace w ++ t)%list
     /\ removed t = (if bool_decide (buildOutputPath w ∈ disk w)
                     then [buildOutputPath w] else [])
     /\ Rmdir (buildOutputPath w) false ∉ t)
  /\ (eval (run start) w = Returns tt ->
      exists clean,
        disk (exec (run start) w)
        = builtDisk (exec (run start) w) (realExtensions (app w)) clean
        /\ buildOutputPath w ∈ clean
        /\ (forall q, inside (buildOutputPath w) q = false -> q ∈ clean <-> q ∈ disk w)
        /\ (buildOutputPath w ∈ disk w ->
            forall q, q ∈ clean -> inside (buildOutputPath w) q = true ->
                      q = buildOutputPath w))
  /\ (forall e, mkdirOutcome (buildOutputPath w) (clearedDisk w) = Throws e ->
      eval (run start) w = Throws e
      /\ (buildOutputPath w ∉ disk (exec (run start) w))
      /\ forall q, inside (buildOutputPath w) q = false ->
                   q ∈ disk (exec (run start) w) <-> q ∈ disk w).
Proof.
  intros Hs. unfold eval, exec. rewrite (run_start_first w Hs). unfold firstStart.
  destruct (mkdirOutcome (buildOutputPath w) (clearedDisk w)) as [[]|e] eqn:Hmk;
    [destruct (createContexts (esbuildExtensions (app w)) (contexts w))
       as [c|e] eqn:Hcc;
     [destruct (startFileWatcherOutcome (app w)) as [[]|e] eqn:Hfw|]|];
    cbn [fst snd].
  - split; [|split; [|done]].
    + eexists. split; [apply trace_readied|]. split.
      * by rewrite removed_app, removed_startWork, removed_calls, app_nil_r.
      * intros Hin. exact (forced_startWork c w _ _ _ Hin eq_refl).
    + intros _. exists ({[buildOutputPath w]} ∪ clearedDisk w).
      destruct (fields_readied c w) as (Hc & Ha & Hu & Hp).
      destruct (fields_rooted c w) as (Hc' & Ha' & Hu' & Hp').
      split; [|split; [|split]].
      * rewrite disk_readied. apply builtDisk_fields; congruence.
      * apply elem_of_union. left. by apply elem_of_singleton.
      * intros q Hout. rewrite elem_of_union, elem_of_singleton, outside_clearedDisk by done.
        split; [|tauto]. intros [->|?]; [|done]. by rewrite inside_refl in Hout.
      * intros Hroot q Hq Hin. apply elem_of_clearedDisk in Hq as [?|[_ Hout]]; [done|].
        rewrite (Hout Hroot) in Hin. discriminate.
  - split; [|split; [done|done]].
    eexists. split; [apply trace_subscribing|]. split.
    + apply removed_startWork.
    + intros Hin.
      apply (forced_startWork c w [] (buildOutputPath w)
               (Rmdir (buildOutputPath w) false)); [|reflexivity].
      cbn [fmap list_fmap]. rewrite app_nil_r. exact Hin.
  - split; [|split; [done|done]].
    eexists. split; [apply trace_rooted|]. split.
    + rewrite removed_app, removed_clearing. simpl. by rewrite app_nil_r.
    + unfold clearing. rewrite elem_of_app. intros [Hin|Hin].
      * destruct (bool_decide (buildOutputPath w ∈ disk w)).
        -- by apply list_elem_of_singleton in Hin.
        -- by apply elem_of_nil in Hin.
      * apply elem_of_cons in Hin as [?|Hin]; [done|].
        by apply list_elem_of_singleton in Hin.
  - split; [|split; [done|]].
    + eexists. split; [apply trace_cleared|]. split.
      * rewrite removed_app, removed_clearing. simpl. by rewrite app_nil_r.
      * unfold clearing. rewrite elem_of_app. intros [Hin|Hin].
        -- destruct (bool_decide (buildOutputPath w ∈ disk w)).
           ++ by apply list_elem_of_singleton in Hin.
           ++ by apply elem_of_nil in Hin.
        -- by apply list_elem_of_singleton in Hin.
    + intros e' [= <-]. split; [done|]. rewrite disk_cleared.
      split; [apply root_not_cleared|]. intros q Hout. by apply outside_clearedDisk.
Qed.

Lemma start_prepares_output_root_witness :
  exists clean,
    disk (exec (run (@start sampleCollaborators)) sampleWatcher)
    = @builtDisk sampleCollaborators
        (exec (run (@start sampleCollaborators)) sampleWatcher)
        (realExtensions (app sampleWatcher)) clean
    /\ "/app/.shopify/bundle" ∈ clean
    /\ ("/app/.shopify/bundle/z-id" ∉ clean)
    /\ "/app/.shopify/bundles" ∈ clean
    /\ eval (run (@start refusingCollaborators)) sampleWatcher
       = Throws (mkError "EACCES: permission denied")
    /\ "/app/.shopify/bundle" ∉
         disk (exec (run (@start refusingCollaborators)) sampleWatcher).
Proof.
  destruct (@start_prepares_output_root refusingCollaborators sampleWatcher eq_refl)
    as (_ & _ & Hrefused).
  destruct (Hrefused (mkError "EACCES: permission denied") eq_refl)
    as (Hthrows & Hmissing & _).
  destruct (@start_prepares_output_root sampleCollaborators sampleWatcher eq_refl)
    as (_ & Hreturns & _).
  assert (Hp : "/app/.shopify/bundle" ∈ disk sampleWatcher).
  { unfold sampleWatcher, new_AppEventWatcher. cbn [disk].
    rewrite !elem_of_union, !elem_of_singleton. by left; left. }
  destruct (Hreturns eq_refl) as (clean & Hdisk & Hroot & Houtside & Hclean).
  exists clean. split; [exact Hdisk|]. split; [exact Hroot|]. split; [|split].
  - intros Hz. discriminate (Hclean Hp _ Hz eq_refl).
  - apply (Houtside "/app/.shopify/bundles" eq_refl).
    unfold sampleWatcher, new_AppEventWatcher. cbn [disk].
    rewrite !elem_of_union, !elem_of_singleton. by right.
  - split; [exact Hthrows | exact Hmissing].
Defined.

(** X18. In a first call of [start] that returns, the esbuild contexts are
    created, for the extensions of the app that are esbuild extensions,
    before anything is built, and the initial build, of every extension of
    the app in their order, already uses them: an extension of the app
    whose handle has a context among those created is rebuilt through it
    and not bundled, and one whose handle has none is bundled and not
    rebuilt. *)
Theorem start_builds_with_created_contexts `{Collaborators}
    (w : Watcher) (ext : ExtensionInstance) :
  started w = false ->
  ext ∈ realExtensions (app w) ->
  eval (run start) w = Returns tt ->
  exists before after c,
    trace (exec (run start) w)
    = (trace w ++ before
         ++ CreateContexts (handle <$> esbuildExtensions (app w)) :: after)%list
    /\ built before = []
    /\ built after = handle <$> realExtensions (app w)
    /\ createContexts (esbuildExtensions (app w)) (contexts w) = Returns c
    /\ contexts (exec (run start) w) = c
    /\ match c !! handle ext with
       | Some _ =>
           Rebuild (handle ext) ∈ after
           /\ forall options dir, BuildForBundle (handle ext) options dir ∉ after
       | None =>
           (Rebuild (handle ext) ∉ after)
           /\ exists options dir, BuildForBundle (handle ext) options dir ∈ after
       end.
Proof.
  intros Hs Hext. unfold eval, exec. rewrite (run_start_first w Hs). unfold firstStart.
  destruct (mkdirOutcome (buildOutputPath w) (clearedDisk w)) as [[]|e] eqn:Hmk;
    [destruct (createContexts (esbuildExtensions (app w)) (contexts w))
       as [c|e] eqn:Hcc;
     [destruct (startFileWatcherOutcome (app w)) as [[]|e] eqn:Hfw|]|];
    cbn [fst snd]; intros [=].
  set (w' := set_contexts c (rooted w)).
  exists (clearing w ++ [Mkdir (buildOutputPath w)])%list,
    (concat (effectsOf w' <$> realExtensions (app w)) ++ [StartFileWatcher]
     ++ ((fun l => Call "ready" l None) <$> listenersOf "ready" w))%list, c.
  destruct (fields_readied c w) as (Hc & _).
  destruct (fields_rooted c w) as (Hc' & _). fold w' in Hc'.
  split.
  { rewrite trace_readied. unfold startWork. fold w'.
    rewrite <- !app_assoc. reflexivity. }
  split.
  { rewrite built_app. unfold clearing.
    by destruct (bool_decide (buildOutputPath w ∈ disk w)). }
  split.
  { rewrite !built_app, built_effects, built_calls. simpl. by rewrite app_nil_r. }
  split; [done|]. split; [done|].
  destruct (c !! handle ext) as [ctx|] eqn:Hctx.
  - split.
    + apply elem_of_started_build; [done|]. apply elem_of_effects.
      exists ext. split; [done|]. unfold effectsOf. rewrite Hc', Hctx.
      apply list_elem_of_further, list_elem_of_here.
    + intros options dir Hin. apply elem_of_started_build in Hin; [|done].
      apply elem_of_effects in Hin as (ext' & _ & Hin).
      unfold effectsOf in Hin. rewrite Hc' in Hin.
      apply list_elem_of_In in Hin. simpl in Hin.
      destruct Hin as [?|[Hin|[]]]; [done|].
      destruct (c !! handle ext') as [ctx'|] eqn:Hctx'; [done|].
      injection Hin as Hh _ _. rewrite Hh, Hctx in Hctx'. done.
  - split.
    + intros Hin. apply elem_of_started_build in Hin; [|done].
      apply elem_of_effects in Hin as (ext' & _ & Hin).
      unfold effectsOf in Hin. rewrite Hc' in Hin.
      apply list_elem_of_In in Hin. simpl in Hin.
      destruct Hin as [?|[Hin|[]]]; [done|].
      destruct (c !! handle ext') as [ctx'|] eqn:Hctx'; [|done].
      injection Hin as Hh. rewrite Hh, Hctx in Hctx'. done.
    + exists (optionsOf w'), (buildOutputPath w').
      apply elem_of_started_build; [done|]. apply elem_of_effects.
      exists ext. split; [done|]. unfold effectsOf. rewrite Hc', Hctx.
      apply list_elem_of_further, list_elem_of_here.
Qed.

Lemma start_builds_with_created_contexts_witness :
  exists before after,
    trace (exec (run (@start sampleCollaborators)) sampleLive)
    = (trace sampleLive ++ before ++ CreateContexts ["z"] :: after)%list
    /\ built before = []
    /\ Rebuild "z" ∈ after.
Proof.
  destruct (@start_builds_with_created_contexts sampleCollaborators sampleLive sampleZ
              eq_refl) as (before & after & c & Htrace & Hbefore & _ & Hc & _ & Hz).
  { apply list_elem_of_further, list_elem_of_further, list_elem_of_here. }
  { reflexivity. }
  exists before, after. split; [exact Htrace|]. split; [exact Hbefore|].
  injection Hc as <-. exact (proj1 Hz).
Defined.

(** ** What feeds the reconciliation and the builds *)

Section Reconciliation.
Context `{Collaborators}.

Lemma app_after_batch appEvent w :
  app (exec (handleAppEvent (Returns (Some appEvent))) w) = ev_app appEvent.
Proof.
  unfold exec.
  destruct (handleAppEvent_cases (Returns (Some appEvent)) w)
    as [(e & [=])|[[=]|[(ev & [= <-] & Hnone)|[(ev & e & [= <-] & Hsome & Hupd)
       |(ev & c & [= <-] & Hsome & Hupd)]]]].
  - rewrite (handleAppEvent_no_events _ _ Hnone). by destruct w.
  - rewrite (handleAppEvent_update_fails _ _ _ Hsome Hupd). by destruct w.
  - rewrite (handleAppEvent_processed_work _ _ _ Hsome Hupd). by destruct w.
Qed.

(** X19. The reconciliation of raw events is always given the app of the
    latest batch: after any batch that is not null, also one without
    events or one whose update of the contexts failed, the next raw events
    are reconciled against the app of that batch; after a reconciliation
    that resolved to nothing or rejected, against the app as it was. *)
Theorem onWatcherEvents_reconciles_against_latest_app
    (events : list WatcherEvent) (appEvent : AppEvent) (e : JsError) (w : Watcher) :
  onWatcherEvents events (exec (handleAppEvent (Returns (Some appEvent))) w)
  = handleAppEvent (handleWatcherEvents events (ev_app appEvent))
      (exec (handleAppEvent (Returns (Some appEvent))) w)
  /\ onWatcherEvents events (exec (handleAppEvent (Returns None)) w)
     = handleAppEvent (handleWatcherEvents events (app w))
         (exec (handleAppEvent (Returns None)) w)
  /\ onWatcherEvents events (exec (handleAppEvent (Throws e)) w)
     = handleAppEvent (handleWatcherEvents events (app w))
         (exec (handleAppEvent (Throws e)) w).
Proof.
  unfold onWatcherEvents. split; [|split].
  - rewrite (bind_eq this _ _ _ _ eq_refl). by rewrite app_after_batch.
  - rewrite (bind_eq this _ _ _ _ eq_refl). unfold exec.
    by rewrite handleAppEvent_nothing.
  - rewrite (bind_eq this _ _ _ _ eq_refl). unfold exec.
    rewrite handleAppEvent_rejected. by destruct w.
Qed.
End Reconciliation.

(** * The string helpers *)

(** ** [escapeRegExp] *)

Lemma escapeRegExp_cons c str :
  escapeRegExp (c :: str)
  = ((if bool_decide (c ∈ regExpSpecials) then [backslash; c] else [c])
     ++ escapeRegExp str)%list.
Proof. done. Qed.

Lemma backslash_special : backslash ∈ regExpSpecials.
Proof. vm_compute. repeat constructor. Qed.

Lemma length_escapeRegExp str :
  length (escapeRegExp str)
  = length str + length (filter (fun c => c ∈ regExpSpecials) str).
Proof.
  induction str as [|c str IH]; [done|].
  rewrite escapeRegExp_cons, filter_cons.
  destruct (decide (c ∈ regExpSpecials)) as [Hc|Hc].
  - rewrite bool_decide_eq_true_2 by done. simpl. rewrite IH. lia.
  - rewrite bool_decide_eq_false_2 by done. simpl. rewrite IH. lia.
Qed.

(** X21. Escaping works character by character: the escape of a
    concatenation is the concatenation of the escapes, and the empty string
    escapes to itself. *)
Theorem escapeRegExp_app (a b : list N) :
  escapeRegExp (a ++ b) = (escapeRegExp a ++ escapeRegExp b)%list
  /\ escapeRegExp [] = [].
Proof.
  split; [|done]. unfold escapeRegExp. by rewrite fmap_app, concat_app.
Qed.

(** X22. In the result every special character of a regular expression,
    the backslash included, stands behind a backslash that escapes it: the
    result is made of ordinary characters and of pairs of a backslash and a
    special character.  Its length is the length of the string plus the
    number of its special characters. *)
Theorem escapeRegExp_escapes_all (str : list N) :
  Escaped (escapeRegExp str)
  /\ length (escapeRegExp str)
     = length str + length (filter (fun c => c ∈ regExpSpecials) str).
Proof.
  split; [|apply length_escapeRegExp].
  induction str as [|c str IH]; [constructor|].
  rewrite escapeRegExp_cons.
  destruct (decide (c ∈ regExpSpecials)) as [Hc|Hc].
  - rewrite bool_decide_eq_true_2 by done. by apply Escaped_pair.
  - rewrite bool_decide_eq_false_2 by done. by apply Escaped_plain.
Qed.

(** X23. A string is left as it is exactly if it has no special character. *)
Theorem escapeRegExp_fixes_plain (str : list N) :
  escapeRegExp str = str <-> Forall (fun c => c ∉ regExpSpecials) str.
Proof.
  split.
  - intros Hfix. apply Forall_forall. intros c Hc Hspecial.
    pose proof (length_escapeRegExp str) as Hlen.
    rewrite Hfix in Hlen.
    assert (Hin : c ∈ filter (fun c => c ∈ regExpSpecials) str)
      by by apply list_elem_of_filter.
    destruct (filter _ str); [by apply elem_of_nil in Hin | simpl in Hlen; lia].
  - induction 1 as [|c str Hc _ IH]; [done|].
    by rewrite escapeRegExp_cons, bool_decide_eq_false_2, IH.
Qed.

(** X24. Different strings have different escapes. *)
Theorem escapeRegExp_injective (a b : list N) :
  escapeRegExp a = escapeRegExp b -> a = b.
Proof.
  revert b. induction a as [|x a IH]; intros [|y b] Heq; [done| | |].
  - rewrite escapeRegExp_cons in Heq. by destruct (bool_decide (y ∈ _)).
  - rewrite escapeRegExp_cons in Heq. by destruct (bool_decide (x ∈ _)).
  - rewrite !escapeRegExp_cons in Heq.
    destruct (decide (x ∈ regExpSpecials)) as [Hx|Hx];
      destruct (decide (y ∈ regExpSpecials)) as [Hy|Hy].
    + rewrite !bool_decide_eq_true_2 in Heq by done.
      injection Heq as -> Heq. f_equal. by apply IH.
    + rewrite bool_decide_eq_true_2, bool_decide_eq_false_2 in Heq by done.
      injection Heq as <- _. destruct Hy. apply backslash_special.
    + rewrite bool_decide_eq_false_2, bool_decide_eq_true_2 in Heq by done.
      injection Heq as -> _. destruct Hx. apply backslash_special.
    + rewrite !bool_decide_eq_false_2 in Heq by done.
      injection Heq as -> Heq. f_equal. by apply IH.
Qed.

Lemma escapeRegExp_injective_witness : units "a.b" = units "a.b".
Proof. apply escapeRegExp_injective. reflexivity. Defined.

(** [escapeRegExp("a.b*(c)")] is ["a\.b\*\(c\)"]. *)
Example escapeRegExp_example :
  escapeRegExp (units "a.b*(c)") = units "a\.b\*\(c\)".
Proof. reflexivity. Qed.

(** ** [joinWithAnd] *)

Lemma quoted_not_nil item : quoted item <> [].
Proof. done. Qed.

Lemma joinWithAnd_cons3 a b c rest :
  joinWithAnd (a :: b :: c :: rest)
  = (quoted a ++ units ", " ++ joinWithAnd (b :: c :: rest))%list.
Proof.
  unfold joinWithAnd. cbn [length].
  rewrite !bool_decide_eq_false_2 by lia.
  replace (S (S (S (length rest))) - 1) with (S (S (length rest))) by lia.
  replace (S (S (length rest)) - 1) with (S (length rest)) by lia.
  cbn [take fmap list_fmap lookup list_lookup joinUnits].
  change (list_fmap _ _ quoted ?l) with (quoted <$> l).
  by rewrite <- !app_assoc.
Qed.

(** X25. [joinWithAnd] by the number of its items: no item gives the empty
    string, one item gives the item in double quotes, two give the two
    quoted items with " and " in between, and an item in front of two or
    more puts its quoted form and ", " in front of their joined form.  The
    result is empty only for no item. *)
Theorem joinWithAnd_by_cases :
  joinWithAnd [] = []
  /\ (forall a, joinWithAnd [a] = quoted a)
  /\ (forall a b, joinWithAnd [a; b] = (quoted a ++ units " and " ++ quoted b)%list)
  /\ (forall a b c rest,
        joinWithAnd (a :: b :: c :: rest)
        = (quoted a ++ units ", " ++ joinWithAnd (b :: c :: rest))%list)
  /\ (forall items, joinWithAnd items = [] <-> items = []).
Proof.
  split; [done|]. split; [done|]. split; [done|].
  split; [apply joinWithAnd_cons3|].
  intros items. split; [|by intros ->].
  destruct items as [|a [|b [|c rest]]]; [done|done|done|].
  by rewrite joinWithAnd_cons3.
Qed.

(** [joinWithAnd(["a", "b", "c"])] is ["a", "b" and "c"]. *)
Example joinWithAnd_example :
  joinWithAnd [units "a"; units "b"; units "c"]
  = (quoted (units "a") ++ units ", " ++ quoted (units "b") ++ units " and "
       ++ quoted (units "c"))%list.
Proof. reflexivity. Qed.

(** ** [normalizeDelimitedString] *)

Lemma unitsLe_refl a : unitsLe a a = true.
Proof.
  induction a as [|x a IH]; [done|]. simpl. by rewrite N.ltb_irrefl.
Qed.

Lemma unitsLe_total a b : unitsLe a b = true \/ unitsLe b a = true.
Proof.
  revert b. induction a as [|x a IH]; intros [|y b]; simpl; auto.
  destruct (N.ltb_spec x y), (N.ltb_spec y x); auto; lia.
Qed.

Lemma unitsLe_antisym a b : unitsLe a b = true -> unitsLe b a = true -> a = b.
Proof.
  revert b. induction a as [|x a IH]; intros [|y b]; simpl; try done.
  destruct (N.ltb_spec x y), (N.ltb_spec y x); try done; try lia.
  intros Hab Hba. assert (x = y) as -> by lia. f_equal. by apply IH.
Qed.

Lemma unitsLe_trans a b c :
  unitsLe a b = true -> unitsLe b c = true -> unitsLe a c = true.
Proof.
  revert b c. induction a as [|x a IH]; intros [|y b] [|z c]; simpl; try done.
  destruct (N.ltb_spec x y), (N.ltb_spec y x), (N.ltb_spec y z), (N.ltb_spec z y),
    (N.ltb_spec x z), (N.ltb_spec z x); try done; try lia.
  apply IH.
Qed.

Lemma elem_of_insertSorted y x l : y ∈ insertSorted x l <-> y = x \/ y ∈ l.
Proof.
  induction l as [|z l IH]; simpl.
  - rewrite list_elem_of_singleton, elem_of_nil. tauto.
  - destruct (unitsLe x z); rewrite !elem_of_cons; [tauto|]. rewrite IH. tauto.
Qed.

Lemma elem_of_sort y l : y ∈ sort l <-> y ∈ l.
Proof.
  induction l as [|x l IH]; [done|].
  cbn [sort foldr]. fold (sort l). rewrite elem_of_insertSorted, elem_of_cons, IH. tauto.
Qed.

Lemma nondecreasing_insertSorted x l :
  nondecreasing l -> nondecreasing (insertSorted x l).
Proof.
  induction l as [|z l IH]; [done|]. intros [Hz Hl]. simpl.
  destruct (unitsLe x z) eqn:Hxz.
  - split; [|done]. constructor; [done|].
    eapply Forall_impl; [exact Hz|]. intros y Hy. by eapply unitsLe_trans.
  - split; [|by apply IH]. apply Forall_forall. intros y Hy.
    apply elem_of_insertSorted in Hy as [->|Hy].
    + by destruct (unitsLe_total x z) as [Hle|Hle]; [congruence|].
    + by eapply Forall_forall in Hz.
Qed.

Lemma nondecreasing_sort l : nondecreasing (sort l).
Proof.
  induction l as [|x l IH]; [done|]. by apply nondecreasing_insertSorted.
Qed.

Lemma elem_of_unique y seen l : y ∈ unique seen l <-> y ∈ l /\ y ∉ seen.
Proof.
  revert seen. induction l as [|x l IH]; intros seen; simpl.
  - rewrite elem_of_nil. tauto.
  - destruct (decide (x ∈ seen)) as [Hx|Hx].
    + rewrite bool_decide_eq_true_2, IH, elem_of_cons by done.
      split; [tauto|]. intros [[->|Hy] Hseen]; tauto.
    + rewrite bool_decide_eq_false_2, !elem_of_cons, IH, not_elem_of_cons by done.
      split.
      * intros [->|(Hy & Hne & Hseen)]; tauto.
      * intros [[->|Hy] Hseen]; [by left|].
        destruct (decide (y = x)) as [->|Hne]; [by left | right; tauto].
Qed.

Lemma ascending_unique seen l : nondecreasing l -> ascending (unique seen l).
Proof.
  revert seen. induction l as [|x l IH]; intros seen; [done|].
  intros [Hx Hl]. simpl. destruct (bool_decide (x ∈ seen)); [by apply IH|].
  split; [|by apply IH]. apply Forall_forall. intros y Hy.
  apply elem_of_unique in Hy as [Hy Hseen]. split.
  - by eapply Forall_forall in Hx.
  - intros ->. apply Hseen, list_elem_of_here.
Qed.

(** Two strictly ascending lists with the same members are the same list. *)
Lemma ascending_ext l1 l2 :
  ascending l1 -> ascending l2 -> (forall t, t ∈ l1 <-> t ∈ l2) -> l1 = l2.
Proof.
  revert l2. induction l1 as [|x l1 IH]; intros [|y l2] H1 H2 Hmem.
  - done.
  - exfalso. eapply elem_of_nil, Hmem, list_elem_of_here.
  - exfalso. eapply elem_of_nil, Hmem, list_elem_of_here.
  - destruct H1 as [Hx H1], H2 as [Hy H2].
    assert (x = y) as ->.
    { pose proof (proj1 (Hmem x) (list_elem_of_here _ _)) as Hxin.
      pose proof (proj2 (Hmem y) (list_elem_of_here _ _)) as Hyin.
      apply elem_of_cons in Hxin as [?|Hxin]; [done|].
      apply elem_of_cons in Hyin as [?|Hyin]; [done|].
      eapply Forall_forall in Hx; [|exact Hyin].
      eapply Forall_forall in Hy; [|exact Hxin].
      apply unitsLe_antisym; tauto. }
    f_equal. apply IH; [done|done|]. intros t. split; intros Ht.
    + pose proof (proj1 (Hmem t) (list_elem_of_further _ _ _ Ht)) as Hin.
      apply elem_of_cons in Hin as [->|Hin]; [|done].
      eapply Forall_forall in Hx; [|exact Ht]. by destruct Hx.
    + pose proof (proj2 (Hmem t) (list_elem_of_further _ _ _ Ht)) as Hin.
      apply elem_of_cons in Hin as [->|Hin]; [|done].
      eapply Forall_forall in Hy; [|exact Ht]. by destruct Hy.
Qed.

Lemma trimStart_head s c : head (trimStart s) = Some c -> isWhiteSpace c = false.
Proof.
  induction s as [|x s IH]; [done|]. simpl.
  destruct (isWhiteSpace x) eqn:Hx; [done|]. simpl. by intros [= <-].
Qed.

Lemma trimStart_suffix s : trimStart s `suffix_of` s.
Proof.
  induction s as [|x s IH]; [done|]. simpl.
  destruct (isWhiteSpace x); [by apply suffix_cons_r | done].
Qed.

Lemma trimEnd_prefix s : trimEnd s `prefix_of` s.
Proof.
  unfold trimEnd. destruct (trimStart_suffix (reverse s)) as [k Hk].
  exists (reverse k). rewrite <- reverse_app, <- Hk. by rewrite reverse_involutive.
Qed.

Lemma trimmed_trim s : trimmed (trim s).
Proof.
  unfold trim. split; intros c Hc.
  - destruct (trimEnd_prefix (trimStart s)) as [k Hk].
    apply (trimStart_head s). rewrite Hk.
    destruct (trimEnd (trimStart s)); [done|]. done.
  - unfold trimEnd in Hc. rewrite last_reverse in Hc.
    by apply trimStart_head in Hc.
Qed.

Lemma elem_of_tokens delimiter str token :
  token ∈ unique [] (sort (filter (fun value => value <> [])
                                  (trim <$> split delimiter str)))
  <-> isToken delimiter str token.
Proof.
  rewrite elem_of_unique, elem_of_sort, list_elem_of_filter, list_elem_of_fmap.
  unfold isToken. split.
  - intros [[Hne (piece & -> & Hpiece)] _]. split; [done|]. by exists piece.
  - intros [Hne (piece & Hpiece & ->)]. split; [|apply not_elem_of_nil].
    split; [done|]. by exists piece.
Qed.

(** X26. Without a string, or for the empty string, there is no result.
    For any other string the result is the delimiter-joined list of the
    tokens of the string (its pieces between delimiters, trimmed, the empty
    ones dropped; the delimiter is a comma unless one is given): every token
    is in the list and nothing else, the list is strictly ascending in the
    order of the code units, so without duplicates, and no member is empty
    or has white space at either end. *)
Theorem normalizeDelimitedString_tokens
    (str : list N) (delimiter : option (list N)) :
  normalizeDelimitedString None delimiter = None
  /\ normalizeDelimitedString (Some []) delimiter = None
  /\ (str <> [] ->
      exists tokens,
        normalizeDelimitedString (Some str) delimiter
        = Some (joinUnits (default (units ",") delimiter) tokens)
        /\ ascending tokens
        /\ Forall (fun token => token <> [] /\ trimmed token) tokens
        /\ forall token,
             token ∈ tokens <-> isToken (default (units ",") delimiter) str token).
Proof.
  split; [done|]. split; [done|]. intros Hstr.
  destruct str as [|c str]; [done|].
  eexists. split; [reflexivity|]. split; [|split].
  - apply ascending_unique, nondecreasing_sort.
  - apply Forall_forall. intros token Htoken.
    apply elem_of_tokens in Htoken as [Hne (piece & _ & ->)].
    split; [done | apply trimmed_trim].
  - intros token. apply elem_of_tokens.
Qed.

(** X27. Only the set of tokens matters: two strings with the same tokens,
    in whatever order and however often repeated, normalize to the same
    string. *)
Theorem normalizeDelimitedString_same_tokens
    (str1 str2 : list N) (delimiter : option (list N)) :
  str1 <> [] -> str2 <> [] ->
  (forall token,
     isToken (default (units ",") delimiter) str1 token
     <-> isToken (default (units ",") delimiter) str2 token) ->
  normalizeDelimitedString (Some str1) delimiter
  = normalizeDelimitedString (Some str2) delimiter.
Proof.
  intros H1 H2 Hsame.
  destruct str1 as [|c1 str1]; [done|]. destruct str2 as [|c2 str2]; [done|].
  unfold normalizeDelimitedString. do 2 f_equal.
  apply ascending_ext.
  - apply ascending_unique, nondecreasing_sort.
  - apply ascending_unique, nondecreasing_sort.
  - intros token. by rewrite !elem_of_tokens.
Qed.

Lemma normalizeDelimitedString_tokens_witness :
  exists tokens,
    normalizeDelimitedString (Some (units " b , a,,b ,c ,a")) None
    = Some (joinUnits (units ",") tokens)
    /\ ascending tokens.
Proof.
  destruct (normalizeDelimitedString_tokens (units " b , a,,b ,c ,a") None)
    as (_ & _ & Htokens).
  destruct Htokens as (tokens & Hresult & Hascending & _); [done|].
  exists tokens. split; [exact Hresult | exact Hascending].
Defined.

Lemma normalizeDelimitedString_same_tokens_witness :
  normalizeDelimitedString (Some (units "b,a")) None
  = normalizeDelimitedString (Some (units " a , b,,a")) None.
Proof.
  apply normalizeDelimitedString_same_tokens; [done|done|].
  intros token. unfold isToken.
  change (split (default (units ",") None) (units "b,a"))
    with [units "b"; units "a"].
  change (split (default (units ",") None) (units " a , b,,a"))
    with [units " a "; units " b"; []; units "a"].
  split; intros [Hne (piece & Hpiece & ->)]; (split; [done|]).
  - apply elem_of_cons in Hpiece as [->|Hpiece];
      [by exists (units " b"); split; [set_solver|]|].
    apply list_elem_of_singleton in Hpiece as ->.
    exists (units "a"). split; [set_solver|done].
  - rewrite !elem_of_cons, elem_of_nil in Hpiece.
    destruct Hpiece as [->|[->|[->|[->|[]]]]].
    + exists (units "a"). split; [set_solver|done].
    + exists (units "b"). split; [set_solver|done].
    + done.
    + exists (units "a"). split; [set_solver|done].
Defined.

(** [normalizeDelimitedString(" b , a,,b ,c ,a")] is ["a,b,c"], and a string
    of delimiters and blanks gives the empty string, not [undefined]. *)
Example normalizeDelimitedString_example :
  normalizeDelimitedString (Some (units " b , a,,b ,c ,a")) None = Some (units "a,b,c")
  /\ normalizeDelimitedString (Some (units " , ,")) None = Some [].
Proof. split; reflexivity. Qed.
